(** * Iodine core: the bridge between lib-server and Ruby

    A shallow embedding of [ext/core/rb-call.c] (the call gateway
    [RubyCaller]) and [ext/core/core.c] (the protocol callbacks, the
    helpers [read], [upgrade], [run], [defer] and [start]).

    The C functions run against three collaborators whose code is not part
    of these two files: the Ruby runtime, the [Registry] and lib-server's
    [Server].  Their state is gathered in one record, [World], and every C
    function is a computation in the monad [M] over it:

    - a computation returns, raises a Ruby exception ([rb_raise], or an
      exception leaving [rb_funcall]), or steps into C undefined behaviour
      ([RSTRING_PTR] of a value that is no String, [DATA_PTR] of a value
      that wraps nothing);
    - the methods written in Ruby are the field [code] of the world: a
      method reads its arguments and the program's own variables, and
      returns or raises.  A callback that uses a helper of the bridge is
      modelled as that helper run as a step of its own;
    - every call that leaves the bridge ([rb_funcall], [Registry.add],
      [Server.close], [fprintf(stderr, ...)], ...) is appended to [trace]. *)

From stdpp Require Import base numbers strings gmap list pretty.

Local Open Scope Z_scope.

(** ** Ruby values *)

(** An [ID] is an interned name; [Init_core] creates the ones below. *)
Definition ID := string.
Definition rb_intern (name : string) : ID := name.

Definition call_proc_id : ID := rb_intern "call".
Definition server_var_id : ID := rb_intern "server".
Definition new_func_id : ID := rb_intern "new".
Definition fd_var_id : ID := rb_intern "sockfd".
Definition on_open_func_id : ID := rb_intern "on_open".
Definition on_data_func_id : ID := rb_intern "on_data".
Definition on_shutdown_func_id : ID := rb_intern "on_shutdown".
Definition on_close_func_id : ID := rb_intern "on_close".
Definition ping_func_id : ID := rb_intern "ping".
Definition on_message_func_id : ID := rb_intern "on_message".
Definition buff_var_id : ID := rb_intern "scrtbuffer".

(** The [mesg] attribute of an exception: [nil] when it was raised without
    a message ([raise ArgumentError]), a String, or some other object. *)
Inductive Mesg :=
  | MesgNil
  | MesgStr (s : string)
  | MesgObj.

(** A [VALUE].  The constructor gives [TYPE(v)]; references carry the
    identity of the object.  A class is known by its name, an instance by
    its class and an address, a String by the address of its storage. *)
Inductive VALUE :=
  | Qfalse
  | Qnil
  | Qtrue
  | Fixnum (n : Z)
  | RString (a : positive)
  | RClass (name : string)
  | RObject (klass : string) (a : positive)
  | RProc (a : positive)
  | RData (srv : positive)
  | RException (klass : string) (mesg : Mesg).

Inductive ruby_value_type :=
  | T_FALSE | T_NIL | T_TRUE | T_FIXNUM | T_STRING | T_CLASS | T_OBJECT | T_DATA.

Definition TYPE (v : VALUE) : ruby_value_type :=
  match v with
  | Qfalse => T_FALSE
  | Qnil => T_NIL
  | Qtrue => T_TRUE
  | Fixnum _ => T_FIXNUM
  | RString _ => T_STRING
  | RClass _ => T_CLASS
  | RObject _ _ => T_OBJECT
  | RProc _ => T_DATA
  | RData _ => T_DATA
  | RException _ _ => T_OBJECT
  end.

#[global] Instance Mesg_eq_dec : EqDecision Mesg.
Proof. solve_decision. Defined.
#[global] Instance VALUE_eq_dec : EqDecision VALUE.
Proof. solve_decision. Defined.
#[global] Instance ruby_value_type_eq_dec : EqDecision ruby_value_type.
Proof. solve_decision. Defined.

Definition VALUE_encode (v : VALUE) : nat * Z * positive * string * string :=
  match v with
  | Qfalse => (0%nat, 0, 1%positive, "", "")
  | Qnil => (1%nat, 0, 1%positive, "", "")
  | Qtrue => (2%nat, 0, 1%positive, "", "")
  | Fixnum n => (3%nat, n, 1%positive, "", "")
  | RString a => (4%nat, 0, a, "", "")
  | RClass c => (5%nat, 0, 1%positive, c, "")
  | RObject c a => (6%nat, 0, a, c, "")
  | RProc a => (7%nat, 0, a, "", "")
  | RData p => (8%nat, 0, p, "", "")
  | RException c MesgNil => (9%nat, 0, 1%positive, c, "")
  | RException c (MesgStr s) => (10%nat, 0, 1%positive, c, s)
  | RException c MesgObj => (11%nat, 0, 1%positive, c, "")
  end.

Definition VALUE_decode (x : nat * Z * positive * string * string) : VALUE :=
  let '(tag, n, a, c, s) := x in
  match tag with
  | 0%nat => Qfalse
  | 1%nat => Qnil
  | 2%nat => Qtrue
  | 3%nat => Fixnum n
  | 4%nat => RString a
  | 5%nat => RClass c
  | 6%nat => RObject c a
  | 7%nat => RProc a
  | 8%nat => RData a
  | 9%nat => RException c MesgNil
  | 10%nat => RException c (MesgStr s)
  | _ => RException c MesgObj
  end.

#[global] Program Instance VALUE_countable : Countable VALUE :=
  inj_countable' VALUE_encode VALUE_decode _.
Next Obligation. by intros [| | | | | | | | |? []]. Qed.

(** [rb_obj_class] and [rb_class_name]. *)
Definition rb_obj_class (v : VALUE) : VALUE :=
  match v with
  | Qfalse => RClass "FalseClass"
  | Qnil => RClass "NilClass"
  | Qtrue => RClass "TrueClass"
  | Fixnum _ => RClass "Fixnum"
  | RString _ => RClass "String"
  | RClass _ => RClass "Class"
  | RObject c _ => RClass c
  | RProc _ => RClass "Proc"
  | RData _ => RClass "Iodine::ServerObject"
  | RException c _ => RClass c
  end.

Definition rb_class_name (c : VALUE) : string :=
  match c with
  | RClass name => name
  | _ => ""
  end.

(** ** Strings, the Ruby program, lib-server's data *)

(** The storage of a String: the memory behind [RSTRING_PTR], the length
    [RSTRING_LEN] and what [rb_str_capacity] reports.  Bytes are integers. *)
Record RStr := { s_mem : list Z; s_len : Z; s_capa : Z }.

(** The bytes a String holds: the first [s_len] bytes of its memory. *)
Definition str_bytes (s : RStr) : list Z := resize (Z.to_nat (s_len s)) 0 (s_mem s).

(** An argument as a Ruby method sees it: the value and, for a String, the
    bytes it holds when the call is made. *)
Definition Arg : Type := VALUE * list Z.

(** How a method written in Ruby completes. *)
Inductive Completion :=
  | Normal (v : VALUE)
  | Abrupt (exc : VALUE).

(** A method written in Ruby (also the body of a block, under [call], and
    the constructor of a class, under [new]). *)
Definition Method : Type :=
  list Arg -> gmap string VALUE -> Completion * gmap string VALUE.

(** Modelled from the spec: lib-server's [struct ServerSettings]
    (lib-server.h is not among the sources), the fields [srv_start] fills
    and [Server.settings(srv)] is read for.  The five protocol callbacks and
    the three hooks are always the functions of core.c and are left out. *)
Record ServerSettings := {
  s_timeout : Z;
  s_threads : Z;
  s_processes : Z;
  s_port : option string;
  s_address : option (list Z);
  s_udata : VALUE;
  s_busy_msg : option (list Z)
}.

(** A task handed to lib-server: [Server.run_async(srv, perform_async, arg)]
    or [Server.fd_task(srv, fd, perform_protocol_async, arg)]. *)
Inductive Task :=
  | AsyncTask (arg : VALUE)
  | FdTask (fd : Z) (arg : VALUE).


(** What the next [Server.read] on a connection finds: bytes that have
    arrived together, or an error code (a negative number). *)
Inductive Incoming :=
  | Bytes (data : list Z)
  | IOError (code : Z).

(** The calls that leave the bridge, in the order they are made. *)
Inductive Event :=
  | EvStderr (text : string)
  | EvBacktrace
  | EvPerror (text : string)
  | EvWarn (text : string)
  | EvGvlAcquire
  | EvGvlRelease
  | EvFuncall (recv : VALUE) (mid : ID) (args : list Arg)
  | EvYield (blk : VALUE) (args : list Arg)
  | EvRegistryAdd (v : VALUE)
  | EvRegistryRemove (v : VALUE)
  | EvSetUdata (fd : Z) (v : VALUE)
  | EvClose (fd : Z)
  | EvForceClose (fd : Z)
  | EvTouch (fd : Z)
  | EvRead (fd : Z) (len : Z) (n : Z)
  | EvFdTask (fd : Z) (task : VALUE)
  | EvRunAsync (task : VALUE)
  | EvListen (s : ServerSettings)
  | EvStopAll.

(** ** The world *)

Record World := {
  (* the Ruby runtime *)
  code : VALUE -> ID -> option Method;   (* the methods written in Ruby *)
  uvars : gmap string VALUE;             (* the program's own variables *)
  errinfo : VALUE;                       (* rb_errinfo() *)
  ivars : gmap (VALUE * ID) VALUE;       (* rb_ivar_get / rb_ivar_set *)
  strs : gmap positive RStr;             (* the storage of Strings *)
  next_id : positive;                    (* the next fresh address *)
  includes : gset VALUE;                 (* classes that include rProtocol *)
  (* the Registry *)
  registry : gset VALUE;
  (* lib-server *)
  settings : ServerSettings;             (* Server.settings(srv) *)
  udata : gmap Z VALUE;                  (* Server.get_udata / set_udata *)
  tasks : list Task;                     (* submitted, not yet performed *)
  busy : gset Z;                         (* Server.is_busy *)
  inbox : gmap Z (list Incoming);        (* what Server.read will find *)
  listen_status : Z;                     (* what Server.listen returns *)
  (* the calls made so far *)
  trace : list Event
}.

Definition set_uvars (x : gmap string VALUE) (w : World) : World :=
  {| code := code w; uvars := x; errinfo := errinfo w; ivars := ivars w;
     strs := strs w; next_id := next_id w; includes := includes w;
     registry := registry w; settings := settings w; udata := udata w;
     tasks := tasks w; busy := busy w; inbox := inbox w;
     listen_status := listen_status w; trace := trace w |}.

Definition set_errinfo (x : VALUE) (w : World) : World :=
  {| code := code w; uvars := uvars w; errinfo := x; ivars := ivars w;
     strs := strs w; next_id := next_id w; includes := includes w;
     registry := registry w; settings := settings w; udata := udata w;
     tasks := tasks w; busy := busy w; inbox := inbox w;
     listen_status := listen_status w; trace := trace w |}.

Definition set_ivars (x : gmap (VALUE * ID) VALUE) (w : World) : World :=
  {| code := code w; uvars := uvars w; errinfo := errinfo w; ivars := x;
     strs := strs w; next_id := next_id w; includes := includes w;
     registry := registry w; settings := settings w; udata := udata w;
     tasks := tasks w; busy := busy w; inbox := inbox w;
     listen_status := listen_status w; trace := trace w |}.

Definition set_strs (x : gmap positive RStr) (w : World) : World :=
  {| code := code w; uvars := uvars w; errinfo := errinfo w;
     ivars := ivars w; strs := x; next_id := next_id w;
     includes := includes w; registry := registry w; settings := settings w;
     udata := udata w; tasks := tasks w; busy := busy w; inbox := inbox w;
     listen_status := listen_status w; trace := trace w |}.

Definition set_next_id (x : positive) (w : World) : World :=
  {| code := code w; uvars := uvars w; errinfo := errinfo w;
     ivars := ivars w; strs := strs w; next_id := x; includes := includes w;
     registry := registry w; settings := settings w; udata := udata w;
     tasks := tasks w; busy := busy w; inbox := inbox w;
     listen_status := listen_status w; trace := trace w |}.

Definition set_includes (x : gset VALUE) (w : World) : World :=
  {| code := code w; uvars := uvars w; errinfo := errinfo w;
     ivars := ivars w; strs := strs w; next_id := next_id w; includes := x;
     registry := registry w; settings := settings w; udata := udata w;
     tasks := tasks w; busy := busy w; inbox := inbox w;
     listen_status := listen_status w; trace := trace w |}.

Definition set_registry (x : gset VALUE) (w : World) : World :=
  {| code := code w; uvars := uvars w; errinfo := errinfo w;
     ivars := ivars w; strs := strs w; next_id := next_id w;
     includes := includes w; registry := x; settings := settings w;
     udata := udata w; tasks := tasks w; busy := busy w; inbox := inbox w;
     listen_status := listen_status w; trace := trace w |}.

Definition set_settings (x : ServerSettings) (w : World) : World :=
  {| code := code w; uvars := uvars w; errinfo := errinfo w;
     ivars := ivars w; strs := strs w; next_id := next_id w;
     includes := includes w; registry := registry w; settings := x;
     udata := udata w; tasks := tasks w; busy := busy w; inbox := inbox w;
     listen_status := listen_status w; trace := trace w |}.

Definition set_udata (x : gmap Z VALUE) (w : World) : World :=
  {| code := code w; uvars := uvars w; errinfo := errinfo w;
     ivars := ivars w; strs := strs w; next_id := next_id w;
     includes := includes w; registry := registry w; settings := settings w;
     udata := x; tasks := tasks w; busy := busy w; inbox := inbox w;
     listen_status := listen_status w; trace := trace w |}.

Definition set_tasks (x : list Task) (w : World) : World :=
  {| code := code w; uvars := uvars w; errinfo := errinfo w;
     ivars := ivars w; strs := strs w; next_id := next_id w;
     includes := includes w; registry := registry w; settings := settings w;
     udata := udata w; tasks := x; busy := busy w; inbox := inbox w;
     listen_status := listen_status w; trace := trace w |}.

Definition set_inbox (x : gmap Z (list Incoming)) (w : World) : World :=
  {| code := code w; uvars := uvars w; errinfo := errinfo w;
     ivars := ivars w; strs := strs w; next_id := next_id w;
     includes := includes w; registry := registry w; settings := settings w;
     udata := udata w; tasks := tasks w; busy := busy w; inbox := x;
     listen_status := listen_status w; trace := trace w |}.

Definition set_trace (x : list Event) (w : World) : World :=
  {| code := code w; uvars := uvars w; errinfo := errinfo w;
     ivars := ivars w; strs := strs w; next_id := next_id w;
     includes := includes w; registry := registry w; settings := settings w;
     udata := udata w; tasks := tasks w; busy := busy w; inbox := inbox w;
     listen_status := listen_status w; trace := x |}.

Definition log (e : Event) (w : World) : World := set_trace (trace w ++ [e]) w.

(** ** The monad of C functions *)

Inductive Outcome (A : Type) :=
  | Return (a : A)
  | Raise (exc : VALUE)
  | Undefined.
Arguments Return {A} a.
Arguments Raise {A} exc.
Arguments Undefined {A}.

Definition M (A : Type) : Type := World -> Outcome A * World.

Definition ret {A} (a : A) : M A := fun w => (Return a, w).

Definition bind {A B} (m : M A) (k : A -> M B) : M B :=
  fun w =>
    match m w with
    | (Return a, w1) => k a w1
    | (Raise e, w1) => (Raise e, w1)
    | (Undefined, w1) => (Undefined, w1)
    end.

Notation "'let*' x ':=' m 'in' k" := (bind m (fun x => k))
  (at level 10, x pattern, m at level 100, k at level 200).

(** A read of the world, and a step that cannot fail. *)
Definition gets {A} (f : World -> A) : M A := fun w => (Return (f w), w).
Definition modify (f : World -> World) : M unit := fun w => (Return tt, f w).
Definition emit (e : Event) : M unit := modify (log e).
Definition undefined_behaviour {A} : M A := fun w => (Undefined, w).

(** ** The Ruby C API, as far as the bridge uses it *)

Definition LF : string := String (Ascii.ascii_of_nat 10) "".

Definition rb_raise {A} (klass : string) (mesg : string) : M A :=
  fun w => (Raise (RException klass (MesgStr mesg)), w).

Definition rb_errinfo : M VALUE := gets errinfo.
Definition rb_set_errinfo (v : VALUE) : M unit := modify (set_errinfo v).

(** [rb_attr_get(exc, rb_intern("mesg"))]: the message of an exception,
    [nil] for an exception without one and for what is no exception.  A
    String is returned by the text it holds, [inr], any other value as
    itself, [inl]. *)
Definition rb_attr_get_mesg (exc : VALUE) : VALUE + string :=
  match exc with
  | RException _ MesgNil => inl Qnil
  | RException _ (MesgStr s) => inr s
  | RException _ MesgObj => inl (RData 1)
  | _ => inl Qnil
  end.

Definition rb_backtrace : M unit := emit EvBacktrace.
Definition rb_warn (text : string) : M unit := emit (EvWarn text).
Definition fprintf_stderr (text : string) : M unit := emit (EvStderr text).
Definition perror (text : string) : M unit := emit (EvPerror text).

Definition rb_ivar_get (obj : VALUE) (id : ID) : M VALUE :=
  gets (fun w => default Qnil (ivars w !! (obj, id))).
Definition rb_ivar_set (obj : VALUE) (id : ID) (v : VALUE) : M unit :=
  modify (fun w => set_ivars (<[(obj, id) := v]> (ivars w)) w).

Definition rb_include_module (klass : VALUE) : M unit :=
  modify (fun w => set_includes ({[klass]} ∪ includes w) w).

(** [DATA_PTR]: the pointer a T_DATA object wraps; the bridge uses it on
    the [server] variable only, which holds a wrapped [struct Server*]. *)
Definition DATA_PTR (v : VALUE) : M positive :=
  match v with
  | RData srv => ret srv
  | _ => undefined_behaviour
  end.
Definition TypedData_Wrap_Struct (srv : positive) : VALUE := RData srv.

Definition INT_MAX : Z := 2147483647.
Definition INT_MIN : Z := -2147483648.

(** [FIX2INT]: the [int] of a Fixnum; a Fixnum outside [int] is a
    RangeError and a value that converts to no integer a TypeError. *)
Definition FIX2INT (v : VALUE) : M Z :=
  match v with
  | Fixnum n =>
      if bool_decide (INT_MIN <= n <= INT_MAX) then ret n
      else rb_raise "RangeError" "integer too big to convert to `int'"
  | _ => rb_raise "TypeError" "no implicit conversion into Integer"
  end.
Definition INT2FIX (n : Z) : VALUE := Fixnum n.
Definition LONG2FIX (n : Z) : VALUE := Fixnum n.

(** [FIX2LONG] is used on Fixnums only. *)
Definition FIX2LONG (v : VALUE) : M Z :=
  match v with
  | Fixnum n => ret n
  | _ => undefined_behaviour
  end.

(** *** Strings *)

Definition STR_BUF_MIN_SIZE : Z := 128.

Definition fresh_addr : M positive :=
  fun w => (Return (next_id w), set_next_id (Pos.succ (next_id w)) w).

(** [rb_str_buf_new(capa)]: a new empty String with room for [capa] bytes
    (at least [STR_BUF_MIN_SIZE]). *)
Definition rb_str_buf_new (capa : Z) : M VALUE :=
  let* a := fresh_addr in
  let* _ := modify (fun w =>
    set_strs (<[a := {| s_mem := []; s_len := 0;
                        s_capa := Z.max capa STR_BUF_MIN_SIZE |}]> (strs w)) w) in
  ret (RString a).

(** The storage behind a String; of anything else, undefined behaviour. *)
Definition RSTRING (v : VALUE) : M (positive * RStr) :=
  match v with
  | RString a =>
      fun w => match strs w !! a with
               | Some s => (Return (a, s), w)
               | None => (Undefined, w)
               end
  | _ => undefined_behaviour
  end.

Definition RSTRING_LEN (v : VALUE) : M Z := let* (_, s) := RSTRING v in ret (s_len s).
Definition rb_str_capacity (v : VALUE) : M Z := let* (_, s) := RSTRING v in ret (s_capa s).
Definition RSTRING_PTR (v : VALUE) : M positive := let* (a, _) := RSTRING v in ret a.
Definition RSTRING_BYTES (v : VALUE) : M (list Z) :=
  let* (_, s) := RSTRING v in ret (str_bytes s).

Definition store_str (a : positive) (s : RStr) : M unit :=
  modify (fun w => set_strs (<[a := s]> (strs w)) w).

(** [rb_str_resize(str, len)]: the String becomes [len] bytes long; its
    capacity becomes [len] when it was smaller, or larger by more than
    [min len 1024]. *)
Definition rb_str_resize (v : VALUE) (len : Z) : M unit :=
  if bool_decide (len < 0) then
    rb_raise "ArgumentError" "negative string size (or size too big)"
  else
    let* (a, s) := RSTRING v in
    if bool_decide (len = s_len s) then ret tt
    else
      let capa :=
        if bool_decide (s_capa s < len \/ Z.min len 1024 < s_capa s - len)
        then len else s_capa s in
      store_str a {| s_mem := s_mem s; s_len := len; s_capa := capa |}.

(** [rb_str_set_len(str, len)]: sets the length; a length beyond the
    capacity is a bug of the caller ([rb_bug]). *)
Definition rb_str_set_len (v : VALUE) (len : Z) : M unit :=
  let* (a, s) := RSTRING v in
  if bool_decide (0 <= len <= s_capa s) then
    store_str a {| s_mem := s_mem s; s_len := len; s_capa := s_capa s |}
  else undefined_behaviour.

(** The arguments of a call as the callee sees them. *)
Definition snapshot (w : World) (v : VALUE) : Arg :=
  (v, match v with
      | RString a => from_option str_bytes [] (strs w !! a)
      | _ => []
      end).

(** ** The Registry *)

(** Modelled from the spec: [Registry.add] (rb-registry.h is not among the
    sources).  The Registered Object Set is a set of values, keyed by
    identity; [add] inserts. *)
Definition Registry_add (v : VALUE) : M unit :=
  let* _ := emit (EvRegistryAdd v) in
  modify (fun w => set_registry ({[v]} ∪ registry w) w).

(** Modelled from the spec: [Registry.remove]; it removes the value from
    the set, and does nothing for a value that is not in it. *)
Definition Registry_remove (v : VALUE) : M unit :=
  let* _ := emit (EvRegistryRemove v) in
  modify (fun w => set_registry (registry w ∖ {[v]}) w).

(** ** lib-server *)

(** Modelled from the spec: [Server.get_udata(srv, fd)] and
    [Server.set_udata(srv, fd, p)] (lib-server is not among the sources).
    The pointer kept for a connection, a null pointer when none was set;
    as a [VALUE] the null pointer is [Qfalse]. *)
Definition Server_get_udata (srv : positive) (fd : Z) : M VALUE :=
  gets (fun w => default Qfalse (udata w !! fd)).
Definition Server_set_udata (srv : positive) (fd : Z) (p : VALUE) : M unit :=
  let* _ := emit (EvSetUdata fd p) in
  modify (fun w => set_udata (<[fd := p]> (udata w)) w).

(** Modelled from the spec: [Server.close], [Server.touch] (reset the idle
    timer) and [Server.is_busy]; the first two are requests to lib-server
    and show in the trace only. *)
Definition Server_close (srv : positive) (fd : Z) : M unit := emit (EvClose fd).
Definition Server_touch (srv : positive) (fd : Z) : M unit := emit (EvTouch fd).
Definition Server_is_busy (srv : positive) (fd : Z) : M bool :=
  gets (fun w => bool_decide (fd ∈ busy w)).

(** Modelled from the spec: [Server.settings(srv)]. *)
Definition Server_settings (srv : positive) : M ServerSettings := gets settings.

(** Modelled from the spec: task submission, [Server.run_async] and
    [Server.fd_task]; the task waits in lib-server's queue. *)
Definition Server_run_async (srv : positive) (arg : VALUE) : M unit :=
  let* _ := emit (EvRunAsync arg) in
  modify (fun w => set_tasks (tasks w ++ [AsyncTask arg]) w).
Definition Server_fd_task (srv : positive) (fd : Z) (arg : VALUE) : M unit :=
  let* _ := emit (EvFdTask fd arg) in
  modify (fun w => set_tasks (tasks w ++ [FdTask fd arg]) w).

(** What a read of at most [len] bytes takes from what has arrived: the
    count returned, the bytes, and what is left.  Nothing pending reads as
    0, an error as -1. *)
Definition take_incoming (len : Z) (q : list Incoming) : Z * list Z * list Incoming :=
  match q with
  | [] => (0, [], [])
  | IOError _ :: rest => (-1, [], rest)
  | Bytes d :: rest =>
      if bool_decide (Z.of_nat (length d) <= len) then (Z.of_nat (length d), d, rest)
      else (Z.max 0 len, take (Z.to_nat len) d, Bytes (drop (Z.to_nat len) d) :: rest)
  end.

(** Modelled from the spec: [Server.read(fd, buffer, max_len)], bytes read
    or an error.  The bytes are written at the start of the buffer. *)
Definition Server_read (fd : Z) (buf : positive) (len : Z) : M Z :=
  fun w =>
    let '(n, data, rest) := take_incoming len (default [] (inbox w !! fd)) in
    match strs w !! buf with
    | None => (Undefined, w)
    | Some s =>
        let s' := {| s_mem := data ++ drop (length data) (s_mem s);
                     s_len := s_len s; s_capa := s_capa s |} in
        (Return n,
         log (EvRead fd len n)
           (set_inbox (<[fd := rest]> (inbox w)) (set_strs (<[buf := s']> (strs w)) w)))
    end.

(** ** core.c: the helpers and default callbacks of the Protocol module *)

(** [srv_read]: reads from a connection, up to x size bytes.
    ([rb_enc_associate_index], which marks the String as binary, is not
    modelled: Strings are bytes here.) *)
Definition srv_read (argv : list VALUE) (self : VALUE) : M VALUE :=
  if bool_decide (1 < length argv)%nat then
    rb_raise "ArgumentError"
      "read accepts only one argument - a Fixnum (buffer length) or a String (it's capacity - or 1Kb, whichever's the higher - will be used as buffer's length)."
  else
    let buffer := match argv with [b] => b | _ => Qnil end in
    if bool_decide (buffer <> Qnil /\ TYPE buffer <> T_FIXNUM /\ TYPE buffer <> T_STRING) then
      rb_raise "TypeError"
        "buffer should either be a length (a new string will be created) or a string (reading will be limited to the original string's capacity or 1Kb - whichever the larger)."
    else
      let* fd := (let* v := rb_ivar_get self fd_var_id in FIX2INT v) in
      let buffer := if bool_decide (buffer = Qnil) then LONG2FIX 1024 else buffer in
      let* (str, len) :=
        (if bool_decide (TYPE buffer = T_FIXNUM) then
           let* len := FIX2LONG buffer in
           let len := if bool_decide (len <= 0) then 1024 else len in
           let* str := rb_str_buf_new len in
           ret (str, len)
         else
           let* len := rb_str_capacity buffer in
           let* len := (if bool_decide (len < 1024)
                        then let* _ := rb_str_resize buffer 1024 in ret 1024
                        else ret len) in
           ret (buffer, len)) in
      let* ptr := RSTRING_PTR str in
      let* n := Server_read fd ptr len in
      let* _ := (if bool_decide (n > 0) then rb_str_set_len str n
                 else rb_str_set_len str 0) in
      ret str.

(** default callback - do nothing *)
Definition empty_func (self : VALUE) : M VALUE := ret Qnil.
Definition def_on_message (self data : VALUE) : M VALUE := ret Qnil.

(** [no_ping_func], the default ping method: only close if the main code
    (on_data / task) isn't running. *)
Definition no_ping_func (self : VALUE) : M VALUE :=
  let* srv := (let* v := rb_ivar_get self server_var_id in DATA_PTR v) in
  let* fd := (let* v := rb_ivar_get self fd_var_id in FIX2INT v) in
  let* is_busy := Server_is_busy srv fd in
  let* _ := (if negb is_busy then Server_close srv fd else Server_touch srv fd) in
  ret Qnil.

(** *** Method dispatch *)

Definition run_method (m : Method) (args : list VALUE) : M VALUE :=
  fun w =>
    let '(c, u) := m (snapshot w <$> args) (uvars w) in
    match c with
    | Normal v => (Return v, set_uvars u w)
    | Abrupt e => (Raise e, set_uvars u w)
    end.

Definition rb_class_new_instance (klass : string) : M VALUE :=
  let* a := fresh_addr in ret (RObject klass a).

(** A NoMethodError keeps its message as an object that builds the text
    when asked for it ([NameError::message]), not as a String. *)
Definition no_method_error {A} : M A :=
  fun w => (Raise (RException "NoMethodError" MesgObj), w).

Definition arity0 (f : VALUE -> M VALUE) (self : VALUE) (args : list VALUE) : M VALUE :=
  match args with
  | [] => f self
  | _ => rb_raise "ArgumentError" "wrong number of arguments"
  end.
Definition arity1 (f : VALUE -> VALUE -> M VALUE) (self : VALUE) (args : list VALUE) : M VALUE :=
  match args with
  | [x] => f self x
  | _ => rb_raise "ArgumentError" "wrong number of arguments"
  end.

(** [rb_funcall(recv, mid, argc, ...)] over a table of the methods that
    modules written in C give to the classes that include them.  A method
    the program defines for the receiver comes first (a class's own method
    hides the one of an included module); every class has [new], and a
    Proc the program gives no body is an empty block. *)
Definition rb_funcall_with (table : ID -> option (VALUE -> list VALUE -> M VALUE))
    (recv : VALUE) (mid : ID) (args : list VALUE) : M VALUE :=
  let* _ := (fun w => emit (EvFuncall recv mid (snapshot w <$> args)) w) in
  let* m := gets (fun w => code w recv mid) in
  match m with
  | Some m => run_method m args
  | None =>
      let* included := gets (fun w => bool_decide (rb_obj_class recv ∈ includes w)) in
      match (if included : bool then table mid else None) with
      | Some f => f recv args
      | None =>
          match recv with
          | RClass name =>
              if bool_decide (mid = new_func_id) then rb_class_new_instance name
              else no_method_error
          | RProc _ =>
              if bool_decide (mid = call_proc_id) then ret Qnil else no_method_error
          | _ => no_method_error
          end
      end
  end.

(** The callbacks [Init_core] defines on [rProtocol], [on_data] apart. *)
Definition protocol_callbacks (mid : ID) : option (VALUE -> list VALUE -> M VALUE) :=
  if bool_decide (mid = on_open_func_id) then Some (arity0 empty_func)
  else if bool_decide (mid = on_message_func_id) then Some (arity1 def_on_message)
  else if bool_decide (mid = ping_func_id) then Some (arity0 no_ping_func)
  else if bool_decide (mid = on_shutdown_func_id) then Some (arity0 empty_func)
  else if bool_decide (mid = on_close_func_id) then Some (arity0 empty_func)
  else None.

(** A [do { ... } while (cond)] loop whose body yields the condition;
    [None] when the fuel runs out before the loop ends. *)
Fixpoint do_while (fuel : nat) (body : M bool) (w : World) : option (Outcome unit * World) :=
  match fuel with
  | O => None
  | S fuel' =>
      match body w with
      | (Return true, w1) => do_while fuel' body w1
      | (Return false, w1) => Some (Return tt, w1)
      | (Raise e, w1) => Some (Raise e, w1)
      | (Undefined, w1) => Some (Undefined, w1)
      end
  end.

(** One turn of the loop of [def_on_data]; [false] also stands for the
    [return Qnil] inside the loop. *)
Definition def_on_data_body (self buff : VALUE) : M bool :=
  let* _ := srv_read [buff] self in
  let* len := RSTRING_LEN buff in
  if bool_decide (len = 0) then ret false
  else
    let* _ := rb_funcall_with protocol_callbacks self on_message_func_id [buff] in
    let* len := RSTRING_LEN buff in
    let* capa := rb_str_capacity buff in
    ret (bool_decide (len = capa)).

(** The bytes waiting on the connection of [self]. *)
Definition pending_of (q : list Incoming) : nat :=
  sum_list ((fun i => match i with Bytes d => length d | IOError _ => O end) <$> q).
Definition pending (fd : Z) (w : World) : nat := pending_of (default [] (inbox w !! fd)).
Definition bound_fd (self : VALUE) (w : World) : Z :=
  match ivars w !! (self, fd_var_id) with
  | Some (Fixnum fd) => fd
  | _ => 0
  end.

(** [def_on_data], the default on_data method.  A turn that asks for
    another one has read at least 1024 bytes, so the loop ends within one
    turn more than there are bytes waiting ([def_on_data_loop_ends]). *)
Definition def_on_data (self : VALUE) : M VALUE :=
  let* buff := rb_ivar_get self buff_var_id in
  let* buff := (if bool_decide (buff = Qnil)
                then let* b := rb_str_buf_new 1024 in
                     let* _ := rb_ivar_set self buff_var_id b in ret b
                else ret buff) in
  fun w =>
    match do_while (S (pending (bound_fd self w) w)) (def_on_data_body self buff) w with
    | Some (Return _, w1) => (Return Qnil, w1)
    | Some (Raise e, w1) => (Raise e, w1)
    | Some (Undefined, w1) => (Undefined, w1)
    | None => (Undefined, w)
    end.

(** The methods [Init_core] defines on [rProtocol] and the bridge calls. *)
Definition protocol_methods (mid : ID) : option (VALUE -> list VALUE -> M VALUE) :=
  if bool_decide (mid = on_data_func_id) then Some (arity0 def_on_data)
  else protocol_callbacks mid.

Definition rb_funcall (recv : VALUE) (mid : ID) (args : list VALUE) : M VALUE :=
  rb_funcall_with protocol_methods recv mid args.

(** [rb_protect(func, args, &state)]: runs the call; when an exception
    leaves it, the value is [Qnil], the state is not 0 and the exception is
    the pending error [rb_errinfo()]. *)
Definition TAG_RAISE : Z := 6.
Definition rb_protect (call : M VALUE) : M (VALUE * Z) :=
  fun w =>
    match call w with
    | (Return v, w1) => (Return (v, 0), w1)
    | (Raise e, w1) => (Return (Qnil, TAG_RAISE), set_errinfo e w1)
    | (Undefined, w1) => (Undefined, w1)
    end.

(** [rb_thread_call_with_gvl] and [rb_thread_call_without_gvl]: the call
    runs between taking and giving back the global lock (or the other way
    round); threads are not modelled, the two moments show in the trace. *)
Definition rb_thread_call_with_gvl {A} (f : M A) : M A :=
  let* _ := emit EvGvlAcquire in
  let* r := f in
  let* _ := emit EvGvlRelease in
  ret r.
Definition rb_thread_call_without_gvl {A} (f : M A) : M A :=
  let* _ := emit EvGvlRelease in
  let* r := f in
  let* _ := emit EvGvlAcquire in
  ret r.

(** [rb_need_block], [rb_block_proc] and [rb_yield] for a method called
    with the block [blk]. *)
Definition rb_need_block (blk : option VALUE) : M unit :=
  match blk with
  | Some _ => ret tt
  | None => rb_raise "LocalJumpError" "no block given (yield)"
  end.
Definition rb_block_proc (blk : option VALUE) : VALUE := default Qnil blk.
Definition rb_yield (blk : option VALUE) (v : VALUE) : M VALUE :=
  match blk with
  | Some b =>
      let* _ := (fun w => emit (EvYield b [snapshot w v]) w) in
      let* m := gets (fun w => code w b call_proc_id) in
      match m with
      | Some m => run_method m [v]
      | None => ret Qnil
      end
  | None => rb_raise "LocalJumpError" "no block given (yield)"
  end.

(** ** rb-call.c: the call gateway *)

(** a structure for Ruby API calls *)
Record RubyApiCall := { obj : VALUE; returned : VALUE; method : ID }.

Definition handle_exception : M VALUE :=
  let* exc := rb_errinfo in
  let* _ :=
    (if bool_decide (exc <> Qnil) then
       let* msg := (match rb_attr_get_mesg exc with
                    | inr text => ret text
                    | inl _ => undefined_behaviour
                    end) in
       let exc_class := rb_class_name (rb_obj_class exc) in
       let* _ := fprintf_stderr (exc_class +:+ ": " +:+ msg +:+ LF) in
       let* _ := rb_backtrace in
       rb_set_errinfo Qnil
     else ret tt) in
  ret exc.

(** running the actual method call *)
Definition run_ruby_method_unsafe (task : RubyApiCall) : M VALUE :=
  rb_funcall (obj task) (method task) [].

(** GVL gateway *)
Definition run_ruby_method_within_gvl (task : RubyApiCall) : M RubyApiCall :=
  let* (r, state) := rb_protect (run_ruby_method_unsafe task) in
  let task := {| obj := obj task; returned := r; method := method task |} in
  let* _ := (if bool_decide (state <> 0) then handle_exception else ret Qnil) in
  ret task.

(** wrapping any API calls for exception management AND GVL entry *)
Definition call (obj : VALUE) (method : ID) : M VALUE :=
  let task := {| obj := obj; returned := Qfalse; method := method |} in
  let* task := rb_thread_call_with_gvl (run_ruby_method_within_gvl task) in
  ret (returned task).

(** wrapping any API calls for exception management *)
Definition call_unsafe (obj : VALUE) (method : ID) : M VALUE :=
  let task := {| obj := obj; returned := Qfalse; method := method |} in
  let* (r, state) := rb_protect (run_ruby_method_unsafe task) in
  let task := {| obj := obj; returned := r; method := method |} in
  let* _ := (if bool_decide (state <> 0) then handle_exception else ret Qnil) in
  ret (returned task).

(** ** core.c: tasks *)



Definition async_warning : string :=
  "called an async method in a non-async mode - the task will be performed immediately.".

(** run a protocol task (preventing concurrency): the method [defer]. *)
Definition run_protocol_task (self : VALUE) (blk : option VALUE) : M VALUE :=
  let* _ := rb_need_block blk in
  let* srv := (let* v := rb_ivar_get self server_var_id in DATA_PTR v) in
  let* s := Server_settings srv in
  let* _ := (if bool_decide (s_threads s < 0) then
               let* _ := rb_warn async_warning in
               let* _ := rb_yield blk Qnil in ret tt
             else ret tt) in
  let block := rb_block_proc blk in
  if bool_decide (block = Qnil) then ret Qnil
  else
    let* _ := Registry_add block in
    let* fd := (let* v := rb_ivar_get self fd_var_id in FIX2INT v) in
    let* _ := Server_fd_task srv fd block in
    ret block.

(** schedules async tasks while managing their Ruby registry: the method
    [run]. *)
Definition run_async (self : VALUE) (blk : option VALUE) : M VALUE :=
  let* _ := rb_need_block blk in
  let* srv := (let* v := rb_ivar_get self server_var_id in DATA_PTR v) in
  let* s := Server_settings srv in
  let* _ := (if bool_decide (s_threads s < 0) then
               let* _ := rb_warn async_warning in
               let* _ := rb_yield blk Qnil in ret tt
             else ret tt) in
  let block := rb_block_proc blk in
  if bool_decide (block = Qnil) then ret Qnil
  else
    let* _ := Registry_add block in
    let* _ := Server_run_async srv block in
    ret block.

(** ** core.c: closing and upgrading a connection *)

(** closes a connection, gracefully *)
Definition srv_close (self : VALUE) : M VALUE :=
  let* srv := (let* v := rb_ivar_get self server_var_id in DATA_PTR v) in
  let* fd := (let* v := rb_ivar_get self fd_var_id in FIX2INT v) in
  let* _ := Server_close srv fd in
  ret Qnil.

(** closes a connection, without waiting for writing to finish *)
Definition srv_force_close (self : VALUE) : M VALUE :=
  let* fd := (let* v := rb_ivar_get self fd_var_id in FIX2INT v) in
  let* _ := emit (EvForceClose fd) in
  ret Qnil.

(** replaces a connection's existing protocol with another *)
Definition srv_upgrade (self protocol : VALUE) : M VALUE :=
  if bool_decide (protocol = Qnil) then ret Qnil
  else
    let* srv := (let* v := rb_ivar_get self server_var_id in DATA_PTR v) in
    let* fd := (let* v := rb_ivar_get self fd_var_id in FIX2INT v) in
    let* protocol :=
      (if bool_decide (TYPE protocol = T_CLASS) then
         let* _ := rb_include_module protocol in
         call_unsafe protocol new_func_id
       else
         let p_class := rb_obj_class protocol in
         let* _ := rb_include_module p_class in
         ret protocol) in
    if bool_decide (protocol = Qnil) then ret Qnil
    else
      let* _ := Server_set_udata srv fd protocol in
      let* _ := Registry_remove self in
      let* _ := Registry_add protocol in
      let* _ := rb_ivar_set protocol fd_var_id (INT2FIX fd) in
      let* _ := rb_ivar_set protocol server_var_id (TypedData_Wrap_Struct srv) in
      let* _ := call_unsafe protocol on_open_func_id in
      ret protocol.

(** ** core.c: the callbacks lib-server calls *)

(** The null test of C on a [VALUE]: only [Qfalse] is 0. *)
Definition is_null (v : VALUE) : bool := bool_decide (v = Qfalse).

(** a new connection - registers a new protocol object and forwards the
    event. *)
Definition on_open (server : positive) (fd : Z) : M unit :=
  let* protocol := Server_get_udata server 0 in
  let* protocol := call protocol new_func_id in
  if bool_decide (protocol = Qnil) then
    Server_close server fd
  else
    let* _ := Registry_add protocol in
    let* _ := rb_ivar_set protocol fd_var_id (INT2FIX fd) in
    let* _ := rb_ivar_set protocol server_var_id (TypedData_Wrap_Struct server) in
    let* _ := Server_set_udata server fd protocol in
    let* _ := call protocol on_open_func_id in
    ret tt.

(** the on_data implementation *)
Definition on_data (server : positive) (fd : Z) : M unit :=
  let* protocol := Server_get_udata server fd in
  if is_null protocol then ret tt
  else let* _ := call protocol on_data_func_id in ret tt.

(** calls the ping callback *)
Definition ping (server : positive) (fd : Z) : M unit :=
  let* protocol := Server_get_udata server fd in
  if is_null protocol then ret tt
  else let* _ := call protocol ping_func_id in ret tt.

(** calls the on_shutdown callback *)
Definition on_shutdown (server : positive) (fd : Z) : M unit :=
  let* protocol := Server_get_udata server fd in
  if is_null protocol then ret tt
  else let* _ := call protocol on_shutdown_func_id in ret tt.

(** calls the on_close callback and de-registers the connection *)
Definition on_close (server : positive) (fd : Z) : M unit :=
  let* protocol := Server_get_udata server fd in
  if is_null protocol then ret tt
  else
    let* _ := call protocol on_close_func_id in
    let* _ := Registry_remove protocol in
    Server_set_udata server fd Qfalse.

(** ** core.c: starting the server *)

Definition VERSION : string := "0.2.0".

(** called when the server starts up. *)
Definition on_init (server : positive) : M unit :=
  let* s := Server_settings server in
  let core_instance := s_udata s in
  let* protocol := rb_ivar_get core_instance (rb_intern "@protocol") in
  let* _ := Server_set_udata server 0 protocol in
  fprintf_stderr
    ("Starting up Iodine V. " +:+ VERSION +:+ " using " +:+ pretty (s_threads s)
     +:+ " thread" +:+ (if bool_decide (s_threads s > 1) then "s" else "")
     +:+ " X " +:+ pretty (s_processes s) +:+ " processes" +:+ LF).

(** The server the process runs. *)
Definition the_server : positive := 1%positive.

(** Modelled from the spec: [Server.listen(settings)], the blocking listen
    loop.  It takes the settings, calls the [on_init] hook and, when the
    loop is over, returns its status.  The events of the loop are steps of
    their own ([event]). *)
Definition Server_listen (s : ServerSettings) (init : positive -> M unit) : M Z :=
  let* _ := emit (EvListen s) in
  let* _ := modify (set_settings s) in
  let* _ := init the_server in
  gets listen_status.

(** the no-GVL state *)
Definition srv_start_no_gvl (s : ServerSettings) : M unit :=
  let* r := Server_listen s on_init in
  if bool_decide (r < 0) then perror "Couldn't start server" else ret tt.

(** The stop unblock fun *)
Definition unblck : M unit := emit EvStopAll.

(** [a && b] and [a || b] of C, whose right operand is evaluated only when
    the left one does not decide. *)
Definition c_and (a b : M bool) : M bool := let* x := a in if x : bool then b else ret false.
Definition c_or (a b : M bool) : M bool := let* x := a in if x : bool then ret true else b.

(** [StringValueCStr]: the bytes of a String that holds no null byte. *)
Definition StringValueCStr (v : VALUE) : M (list Z) :=
  match v with
  | RString _ =>
      let* bytes := RSTRING_BYTES v in
      if bool_decide (0 ∈ bytes) then rb_raise "ArgumentError" "string contains null byte"
      else ret bytes
  | _ => rb_raise "TypeError" "no implicit conversion into String"
  end.

(** the actual method *)
Definition srv_start (self : VALUE) : M VALUE :=
  let* rb_protocol := rb_ivar_get self (rb_intern "@protocol") in
  let* rb_port := rb_ivar_get self (rb_intern "@port") in
  let* rb_bind := rb_ivar_get self (rb_intern "@address") in
  let* rb_timeout := rb_ivar_get self (rb_intern "@timeout") in
  let* rb_threads := rb_ivar_get self (rb_intern "@threads") in
  let* rb_processes := rb_ivar_get self (rb_intern "@processes") in
  let* rb_busymsg := rb_ivar_get self (rb_intern "@busy_msg") in
  if bool_decide (TYPE rb_protocol <> T_CLASS) then
    rb_raise "TypeError" "protocol isn't a valid object (should be a class)."
  else if bool_decide (rb_port <> Qnil /\ TYPE rb_port <> T_FIXNUM) then
    rb_raise "TypeError" "port isn't a valid number."
  else
    let* iport := (if bool_decide (rb_port = Qnil) then ret 3000 else FIX2INT rb_port) in
    if bool_decide (iport > 65535 \/ iport < 0) then
      rb_raise "TypeError" "port out of range."
    else if bool_decide (rb_bind <> Qnil /\ TYPE rb_bind <> T_STRING) then
      rb_raise "TypeError" "bind should be either a String or nil."
    else
      let* _ := (if bool_decide (rb_bind <> Qnil)
                 then rb_warn "the `bind` property is ignored, unimplemented yet"
                 else ret tt) in
      let* bad_timeout :=
        c_and (ret (bool_decide (rb_timeout <> Qnil)))
          (c_or (ret (bool_decide (TYPE rb_timeout <> T_FIXNUM)))
             (c_or (let* t := FIX2INT rb_timeout in ret (bool_decide (t > 255)))
                   (let* t := FIX2INT rb_timeout in ret (bool_decide (t < 0))))) in
      if bad_timeout : bool then
        rb_raise "TypeError" "timeout isn't a valid number (any number from 0 to 255)."
      else
        let* bad_processes :=
          c_and (ret (bool_decide (rb_processes <> Qnil)))
            (c_and (ret (bool_decide (TYPE rb_processes <> T_FIXNUM)))
               (let* n := FIX2INT rb_processes in ret (bool_decide (n > 32)))) in
        if bad_processes : bool then
          rb_raise "TypeError" "processes isn't a valid number (1-32)."
        else
          let* bad_threads :=
            c_and (ret (bool_decide (rb_threads <> Qnil)))
              (c_and (ret (bool_decide (TYPE rb_threads <> T_FIXNUM)))
                 (let* n := FIX2INT rb_threads in ret (bool_decide (n > 128)))) in
          if bad_threads : bool then
            rb_raise "TypeError" "threads isn't a valid number (-1 to 128)."
          else if bool_decide (rb_busymsg <> Qnil /\ TYPE rb_busymsg <> T_STRING) then
            rb_raise "TypeError" "busy_msg should be either a String or nil."
          else
            let* bind_ := (if bool_decide (rb_bind = Qnil) then ret None
                           else let* b := StringValueCStr rb_bind in ret (Some b)) in
            let* timeout := (if bool_decide (rb_timeout = Qnil) then ret 10
                             else FIX2INT rb_timeout) in
            let port := pretty iport in
            let* _ := rb_include_module rb_protocol in
            let* threads := (if bool_decide (rb_threads = Qnil) then ret 0
                             else FIX2INT rb_threads) in
            let* processes := (if bool_decide (rb_processes = Qnil) then ret 0
                               else FIX2INT rb_processes) in
            let* busy_msg := (if bool_decide (rb_busymsg = Qnil) then ret None
                              else let* b := StringValueCStr rb_busymsg in ret (Some b)) in
            let settings :=
              {| s_timeout := timeout; s_threads := threads; s_processes := processes;
                 s_port := if bool_decide (iport > 0) then Some port else None;
                 s_address := bind_; s_udata := self; s_busy_msg := busy_msg |} in
            let* _ := rb_thread_call_without_gvl (srv_start_no_gvl settings) in
            ret Qnil.

(** ** core.c: writing to a connection *)

Section Write.

(** lib-server's [Server.write] and [Server.write_urgent] are not among
    the sources: they are parameters here, any function of the server, the
    descriptor, the address of the data and its length that gives the
    count lib-server returns. *)
Variable Server_write : positive -> Z -> positive -> Z -> M Z.
Variable Server_write_urgent : positive -> Z -> positive -> Z -> M Z.

(** writes data to the connection *)
Definition srv_write (self data : VALUE) : M VALUE :=
  let* srv := (let* v := rb_ivar_get self server_var_id in DATA_PTR v) in
  let* fd := (let* v := rb_ivar_get self fd_var_id in FIX2INT v) in
  let* ptr := RSTRING_PTR data in
  let* len := RSTRING_LEN data in
  let* n := Server_write srv fd ptr len in
  ret (LONG2FIX n).

(** writes data to the connection *)
Definition srv_write_urgent (self data : VALUE) : M VALUE :=
  let* srv := (let* v := rb_ivar_get self server_var_id in DATA_PTR v) in
  let* fd := (let* v := rb_ivar_get self fd_var_id in FIX2INT v) in
  let* ptr := RSTRING_PTR data in
  let* len := RSTRING_LEN data in
  let* n := Server_write_urgent srv fd ptr len in
  ret (LONG2FIX n).

End Write.

(** called when server is idling *)
Definition on_idle (srv : positive) : M unit := ret tt.

(** called for each new thread *)
Definition on_new_thread (srv : positive) : M unit := ret tt.

(** ** A worker of lib-server *)


(** * Vocabulary of the properties *)

(** ** The gateway and the trace *)

(** The line [handle_exception] prints for an error of class [klass] with
    the message [text]. *)
Definition error_line (klass text : string) : string := klass +:+ ": " +:+ text +:+ LF.

(** The gateway's own output: the error line, the stack trace, and taking
    and giving back the global lock. *)
Definition is_noise (e : Event) : bool :=
  match e with
  | EvStderr _ | EvBacktrace | EvGvlAcquire | EvGvlRelease => true
  | _ => false
  end.

(** The calls of a trace, the gateway's own output left out. *)
Definition observe (evs : list Event) : list Event := filter (fun e => is_noise e = false) evs.

(** The methods whose default, if the Protocol module has one, does nothing. *)
Definition plain (mid : ID) : Prop :=
  mid ∈ [new_func_id; on_open_func_id; on_close_func_id; on_shutdown_func_id; call_proc_id].

(** What a call of a plain method through the gateway may change: the
    variables of the program, the pending error, the next address and the
    trace, where it shows as one call. *)
Record plain_step (recv : VALUE) (mid : ID) (w w' : World) : Prop := {
  ps_code : code w' = code w;
  ps_ivars : ivars w' = ivars w;
  ps_strs : strs w' = strs w;
  ps_includes : includes w' = includes w;
  ps_registry : registry w' = registry w;
  ps_settings : settings w' = settings w;
  ps_udata : udata w' = udata w;
  ps_tasks : tasks w' = tasks w;
  ps_busy : busy w' = busy w;
  ps_inbox : inbox w' = inbox w;
  ps_listen : listen_status w' = listen_status w;
  ps_trace : exists evs, trace w' = trace w ++ evs /\ observe evs = [EvFuncall recv mid []]
}.

(** ** Connections: open, upgrade, read *)

(** An operation that completes: it returns or raises, and does not end in
    undefined behaviour. *)
Definition completes {A} (m : M A) (w w' : World) : Prop :=
  exists out, m w = (out, w') /\ out <> Undefined.

(** The world once [on_open] has registered and bound the new object,
    before it calls [on_open] on it. *)
Definition opened (server : positive) (fd : Z) (p : VALUE) (w : World) : World :=
  set_udata (<[fd := p]> (udata w))
    (set_ivars (<[(p, server_var_id) := RData server]> (<[(p, fd_var_id) := Fixnum fd]> (ivars w)))
       (set_registry ({[p]} ∪ registry w)
          (set_trace (trace w ++ [EvRegistryAdd p; EvSetUdata fd p]) w))).

(** The object [on_open] would bind: what the constructor of the protocol
    class returns through the gateway, when it is not [nil]. *)
Definition constructed (w : World) (p : VALUE) : Prop :=
  p <> Qnil /\ exists w1, call (default Qfalse (udata w !! 0)) new_func_id w = (Return p, w1).

(** The world once [srv_upgrade] has bound the new object, before it calls
    [on_open] on it. *)
Definition upgraded (srv : positive) (fd : Z) (self B : VALUE) (w : World) : World :=
  set_ivars (<[(B, server_var_id) := RData srv]> (<[(B, fd_var_id) := Fixnum fd]> (ivars w)))
    (set_registry ({[B]} ∪ (registry w ∖ {[self]}))
       (set_udata (<[fd := B]> (udata w))
          (set_trace (trace w ++ [EvSetUdata fd B; EvRegistryRemove self; EvRegistryAdd B]) w))).



(** The read buffer of [self], when it has one, is a String of the
    runtime: it has storage and its length is within its capacity. *)
Definition read_buffer_ok (w : World) (self : VALUE) : Prop :=
  match default Qnil (ivars w !! (self, buff_var_id)) with
  | Qnil => True
  | RString a => exists s, strs w !! a = Some s /\ 0 <= s_len s <= s_capa s
  | _ => False
  end.


(** ** The Registry and what lib-server holds *)








(** ** Tasks, starting the server, errors in callbacks *)


(** The line [on_init] prints for the settings [s]. *)
Definition startup_line (s : ServerSettings) : string :=
  "Starting up Iodine V. " +:+ VERSION +:+ " using " +:+ pretty (s_threads s)
  +:+ " thread" +:+ (if bool_decide (s_threads s > 1) then "s" else "")
  +:+ " X " +:+ pretty (s_processes s) +:+ " processes" +:+ LF.

(** The world once [Server.listen], called with the settings [s] outside
    the global lock, is over: the settings are the server's, the protocol
    class of the core object is the user-data of descriptor 0. *)
Definition listened (s : ServerSettings) (w : World) : World :=
  let protocol := default Qnil (ivars w !! (s_udata s, rb_intern "@protocol")) in
  set_settings s
    (set_udata (<[0 := protocol]> (udata w))
       (set_trace
          (trace w ++ [EvGvlRelease; EvListen s; EvSetUdata 0 protocol; EvStderr (startup_line s)]
             ++ (if bool_decide (listen_status w < 0) then [EvPerror "Couldn't start server"]
                 else [])
             ++ [EvGvlAcquire]) w)).

(** An attribute of the core object, [nil] when it was never set. *)
Definition core_ivar (w : World) (self : VALUE) (name : string) : VALUE :=
  default Qnil (ivars w !! (self, rb_intern name)).

(** What [start] leaves behind when it does not get to [Server.listen]:
    the settings, the user-data, the Registry, the tasks and the
    attributes are as before, and at most warnings were given. *)
Definition not_started (w w' : World) : Prop :=
  settings w' = settings w /\ udata w' = udata w /\ registry w' = registry w /\
  tasks w' = tasks w /\ ivars w' = ivars w /\ strs w' = strs w /\
  listen_status w' = listen_status w /\
  exists evs, trace w' = trace w ++ evs /\ forall ev, ev ∈ evs -> exists t, ev = EvWarn t.

(** The settings [start] makes of the attributes of the core object: a
    timeout of 10, port 3000 and no thread and process counts when they
    are not set; no port at all for port 0. *)
Definition start_settings (w : World) (self : VALUE) (address busy_msg : option (list Z)) :
    ServerSettings :=
  let iport := match core_ivar w self "@port" with Fixnum n => n | _ => 3000 end in
  {| s_timeout := match core_ivar w self "@timeout" with Fixnum t => t | _ => 10 end;
     s_threads := match core_ivar w self "@threads" with Fixnum n => n | _ => 0 end;
     s_processes := match core_ivar w self "@processes" with Fixnum n => n | _ => 0 end;
     s_port := if bool_decide (iport > 0) then Some (pretty iport) else None;
     s_address := address; s_udata := self; s_busy_msg := busy_msg |}.

(** A step that leaves the world alone: it returns a value that
    satisfies [P], or raises, or is undefined. *)
Definition quiet {A} (m : M A) (P : A -> Prop) (w : World) : Prop :=
  match m w with
  | (Return a, w') => w' = w /\ P a
  | (_, w') => w' = w
  end.

(** What a call of [start] comes to. *)
Definition start_post (self : VALUE) (w : World) (r : Outcome VALUE * World) : Prop :=
  match r with
  | (Return v, w') =>
      v = Qnil /\
      exists address busy_msg w0,
        w' = listened (start_settings w self address busy_msg) w0 /\
        not_started w w0 /\
        includes w0 = {[core_ivar w self "@protocol"]} ∪ includes w /\
        TYPE (core_ivar w self "@protocol") = T_CLASS /\
        0 <= s_timeout (start_settings w self address busy_msg) <= 255 /\
        0 <= match core_ivar w self "@port" with Fixnum n => n | _ => 3000 end <= 65535
  | (Raise e, w') => not_started w w'
  | (Undefined, w') => not_started w w'
  end.


(** The program defines the method [mid] for [recv], and the method
    raises [e] whatever it is given. *)
Definition raises_in (w : World) (recv : VALUE) (mid : ID) (e : VALUE) : Prop :=
  exists m, code w recv mid = Some m /\ forall args u, exists u', m args u = (Abrupt e, u').

(** ** Example programs and states *)

Definition no_settings : ServerSettings :=
  {| s_timeout := 0; s_threads := 0; s_processes := 0; s_port := None;
     s_address := None; s_udata := Qnil; s_busy_msg := None |}.

(** The world of a program before the server is started. *)
Definition empty_world (prog : VALUE -> ID -> option Method) : World :=
  {| code := prog; uvars := ∅; errinfo := Qnil; ivars := ∅; strs := ∅;
     next_id := 1; includes := ∅; registry := ∅; settings := no_settings;
     udata := ∅; tasks := []; busy := ∅; inbox := ∅; listen_status := 0;
     trace := [] |}.

Definition returning (v : VALUE) : Method := fun _ u => (Normal v, u).
Definition raising (e : VALUE) : Method := fun _ u => (Abrupt e, u).

(** A program with four protocol classes and no other method:
    [Echo] defines nothing; [Strict], whose [on_close] runs
    [raise ArgumentError]; [Quiet], which defines [ping] as an empty
    method; [Broken], whose constructor runs [raise "cannot build"]. *)
Definition sample_program (recv : VALUE) (mid : ID) : option Method :=
  match recv with
  | RObject klass _ =>
      if bool_decide (klass = "Strict" /\ mid = on_close_func_id)
      then Some (raising (RException "ArgumentError" MesgNil))
      else if bool_decide (klass = "Quiet" /\ mid = ping_func_id)
      then Some (returning Qnil)
      else None
  | RClass klass =>
      if bool_decide (klass = "Broken" /\ mid = new_func_id)
      then Some (raising (RException "RuntimeError" (MesgStr "cannot build")))
      else None
  | _ => None
  end.

(** The server runs with the protocol class [klass] and [threads] threads:
    [srv_start] has included the Protocol module in the class and
    [on_init] has stored the class in the slot of descriptor 0. *)
Definition started (klass : string) (threads : Z) : World :=
  set_settings {| s_timeout := 10; s_threads := threads; s_processes := 1;
                  s_port := Some "3000"; s_address := None; s_udata := Qnil;
                  s_busy_msg := None |}
    (set_udata {[ 0 := RClass klass ]}
       (set_includes {[ RClass klass ]} (empty_world sample_program))).

(** Connection 5 is open in it. *)
Definition connected (klass : string) (threads : Z) : World :=
  snd (on_open the_server 5 (started klass threads)).

(** The core object of the server, configured with the class [Echo] and
    the given thread and process counts. *)
Definition configured (threads processes : VALUE) : World :=
  set_ivars (<[(RObject "Iodine" 1, rb_intern "@processes") := processes]>
            (<[(RObject "Iodine" 1, rb_intern "@threads") := threads]>
            {[ (RObject "Iodine" 1, rb_intern "@protocol") := RClass "Echo" ]}))
    (empty_world sample_program).


(** 2048 bytes wait on connection 5, in two parts of 1024 bytes. *)
Definition two_chunks : World :=
  set_inbox {[ 5 := [Bytes (replicate 1024 97); Bytes (replicate 1024 98)] ]}
    (connected "Echo" 2).

(** Connection 5 after its object has upgraded it to a [Chat] object. *)
Definition upgraded_once : World :=
  snd (srv_upgrade (RObject "Echo" 1) (RClass "Chat") (connected "Echo" 2)).




(** The object of connection 5 has made a String to read into, and 300
    bytes wait on the connection. *)
Definition with_buffer : World :=
  set_inbox {[ 5 := [Bytes (replicate 300 97)] ]} (snd (rb_str_buf_new 16 (connected "Echo" 2))).

(** A lib-server whose [write] takes everything: it returns the length it
    was given. *)
Definition write_all (srv : positive) (fd : Z) (ptr : positive) (len : Z) : M Z := ret len.

(** A core object with nothing set but the protocol class [Echo]. *)
Definition only_protocol : World :=
  set_ivars {[ (RObject "Iodine" 1, rb_intern "@protocol") := RClass "Echo" ]}
    (empty_world sample_program).

(** A program whose class [Picky] raises in [on_message]. *)
Definition picky_program (recv : VALUE) (mid : ID) : option Method :=
  match recv with
  | RObject klass _ =>
      if bool_decide (klass = "Picky" /\ mid = on_message_func_id)
      then Some (raising (RException "RuntimeError" (MesgStr "bad frame")))
      else None
  | _ => None
  end.

(** Connection 5 of a server of [Picky] objects, with 2048 bytes waiting
    in two parts. *)
Definition picky_connection : World :=
  set_inbox {[ 5 := [Bytes (replicate 1024 97); Bytes (replicate 1024 98)] ]}
    (snd (on_open the_server 5
       (set_settings {| s_timeout := 10; s_threads := 2; s_processes := 1;
                        s_port := Some "3000"; s_address := None; s_udata := Qnil;
                        s_busy_msg := None |}
          (set_udata {[ 0 := RClass "Picky" ]}
             (set_includes {[ RClass "Picky" ]} (empty_world picky_program)))))).

Arguments handle_exception : simpl never.
Arguments rb_funcall : simpl never.
Arguments rb_funcall_with : simpl never.
Arguments call : simpl never.
Arguments call_unsafe : simpl never.
Arguments bind : simpl never.

(** * Properties *)

(** ** Running computations *)

Lemma bind_Return {A B} (m : M A) (k : A -> M B) w a w1 :
  m w = (Return a, w1) -> bind m k w = k a w1.
Proof. unfold bind. by intros ->. Qed.

Lemma bind_Raise {A B} (m : M A) (k : A -> M B) w e w1 :
  m w = (Raise e, w1) -> bind m k w = (Raise e, w1).
Proof. unfold bind. by intros ->. Qed.

Lemma bind_Undefined {A B} (m : M A) (k : A -> M B) w w1 :
  m w = (Undefined, w1) -> bind m k w = (Undefined, w1).
Proof. unfold bind. by intros ->. Qed.

Lemma world_eq (w w' : World) :
  code w = code w' -> uvars w = uvars w' -> errinfo w = errinfo w' ->
  ivars w = ivars w' -> strs w = strs w' -> next_id w = next_id w' ->
  includes w = includes w' -> registry w = registry w' -> settings w = settings w' ->
  udata w = udata w' -> tasks w = tasks w' -> busy w = busy w' -> inbox w = inbox w' ->
  listen_status w = listen_status w' -> trace w = trace w' -> w = w'.
Proof. destruct w, w'; simpl; intros; by subst. Qed.

Ltac world := apply world_eq; simpl; rewrite <- ?(assoc_L (++)); try done.

(** *** The gateway *)

Lemma rb_funcall_with_user table recv mid args w m :
  code w recv mid = Some m ->
  rb_funcall_with table recv mid args w =
    run_method m args (log (EvFuncall recv mid (snapshot w <$> args)) w).
Proof. intros H. unfold rb_funcall_with, bind, emit, modify, gets. simpl. by rewrite H. Qed.

Lemma rb_funcall_with_table table recv mid args w f :
  code w recv mid = None -> rb_obj_class recv ∈ includes w -> table mid = Some f ->
  rb_funcall_with table recv mid args w =
    f recv args (log (EvFuncall recv mid (snapshot w <$> args)) w).
Proof.
  intros H Hi Hf. unfold rb_funcall_with, bind, emit, modify, gets. simpl.
  rewrite H. simpl. rewrite bool_decide_eq_true_2 by done. by rewrite Hf.
Qed.

Lemma call_unsafe_Return recv mid w v w1 :
  rb_funcall recv mid [] w = (Return v, w1) -> call_unsafe recv mid w = (Return v, w1).
Proof.
  intros H. unfold call_unsafe, rb_protect, run_ruby_method_unsafe, bind. simpl.
  by rewrite H.
Qed.

Lemma handle_exception_text w klass text :
  errinfo w = RException klass (MesgStr text) ->
  handle_exception w =
    (Return (RException klass (MesgStr text)),
     set_errinfo Qnil (log EvBacktrace (log (EvStderr (error_line klass text)) w))).
Proof.
  intros H. unfold handle_exception, rb_errinfo, bind, gets. simpl. by rewrite H.
Qed.

Lemma call_unsafe_Raise_text recv mid w klass text w1 :
  rb_funcall recv mid [] w = (Raise (RException klass (MesgStr text)), w1) ->
  call_unsafe recv mid w =
    (Return Qnil,
     set_errinfo Qnil (log EvBacktrace (log (EvStderr (error_line klass text)) w1))).
Proof.
  intros H. unfold call_unsafe, rb_protect, run_ruby_method_unsafe, bind. simpl.
  rewrite H. simpl. unfold ret. by f_equal.
Qed.

Lemma call_unsafe_Raise_other recv mid w exc w1 :
  rb_funcall recv mid [] w = (Raise exc, w1) ->
  (forall klass text, exc <> RException klass (MesgStr text)) ->
  exc <> Qnil ->
  call_unsafe recv mid w = (Undefined, set_errinfo exc w1).
Proof.
  intros H Hexc Hnil. unfold call_unsafe, rb_protect, run_ruby_method_unsafe, bind. simpl.
  rewrite H. simpl. unfold handle_exception, rb_errinfo, bind, gets. simpl.
  rewrite bool_decide_eq_true_2 by done.
  destruct exc as [| | | | | | | | |k []]; simpl; try done.
  by destruct (Hexc k s).
Qed.

Lemma call_unsafe_Undefined recv mid w w1 :
  rb_funcall recv mid [] w = (Undefined, w1) -> call_unsafe recv mid w = (Undefined, w1).
Proof.
  intros H. unfold call_unsafe, rb_protect, run_ruby_method_unsafe, bind. simpl.
  by rewrite H.
Qed.

Lemma call_unsafe_call recv mid w :
  call recv mid w =
    match call_unsafe recv mid (log EvGvlAcquire w) with
    | (Return v, w1) => (Return v, log EvGvlRelease w1)
    | r => r
    end.
Proof.
  unfold call, call_unsafe, rb_thread_call_with_gvl, run_ruby_method_within_gvl, bind, emit, modify.
  simpl.
  destruct (rb_protect _ _) as [[[r st]| |] w1]; simpl; try done.
  destruct (if bool_decide (st <> 0) then _ else _) as [[]]; done.
Qed.

(** *** What a trace shows *)

Lemma observe_app evs1 evs2 : observe (evs1 ++ evs2) = observe evs1 ++ observe evs2.
Proof. apply filter_app. Qed.

Lemma protocol_methods_plain mid :
  plain mid -> protocol_methods mid = None \/ protocol_methods mid = Some (arity0 empty_func).
Proof.
  unfold plain. rewrite !elem_of_cons, elem_of_nil.
  intros [->|[->|[->|[->|[->|[]]]]]]; vm_compute; auto.
Qed.

Ltac plain_step_done :=
  split; simpl; try done;
  eexists; split; [by rewrite <- ?(assoc_L (++)) | done].

Lemma call_unsafe_plain recv mid w :
  plain mid ->
  plain_step recv mid w (snd (call_unsafe recv mid w)) /\
  forall e, fst (call_unsafe recv mid w) <> Raise e.
Proof.
  intros Hp.
  unfold call_unsafe, rb_protect, run_ruby_method_unsafe, rb_funcall, rb_funcall_with,
    bind, emit, modify, gets. simpl.
  destruct (code w recv mid) as [m|]; simpl.
  - unfold run_method. simpl.
    destruct (m [] (uvars w)) as [[v|e] u]; simpl.
    + split; [plain_step_done | done].
    + unfold handle_exception, rb_errinfo, bind, gets. simpl.
      case_bool_decide; simpl; [|split; [plain_step_done | done]].
      destruct (rb_attr_get_mesg e); simpl; (split; [plain_step_done | done]).
  - destruct (protocol_methods_plain mid Hp) as [-> | ->].
    + replace (if bool_decide (rb_obj_class recv ∈ includes w) then None else None)
        with (@None (VALUE -> list VALUE -> M VALUE)) by (by case_bool_decide).
      destruct recv; simpl; try (split; [plain_step_done | done]).
      * case_bool_decide; simpl; (split; [plain_step_done | done]).
      * case_bool_decide; simpl; (split; [plain_step_done | done]).
    + case_bool_decide; simpl; [split; [plain_step_done | done]|].
      destruct recv; simpl; try (split; [plain_step_done | done]).
      * case_bool_decide; simpl; (split; [plain_step_done | done]).
      * case_bool_decide; simpl; (split; [plain_step_done | done]).
Qed.

Lemma call_plain recv mid w :
  plain mid ->
  plain_step recv mid w (snd (call recv mid w)) /\
  forall e, fst (call recv mid w) <> Raise e.
Proof.
  intros Hp. rewrite call_unsafe_call.
  destruct (call_unsafe_plain recv mid (log EvGvlAcquire w) Hp) as [[] Hr].
  destruct (call_unsafe recv mid (log EvGvlAcquire w)) as [[v|e|] w1]; simpl in *.
  - split; [|done]. split; simpl; try done.
    destruct ps_trace0 as (evs & -> & Hobs).
    exists (EvGvlAcquire :: evs ++ [EvGvlRelease]). split.
    + by rewrite <- !(assoc_L (++)).
    + unfold observe in *. rewrite filter_cons_False by done.
      rewrite filter_app, Hobs. done.
  - by destruct (Hr e).
  - split; [|done]. split; simpl; try done.
    destruct ps_trace0 as (evs & -> & Hobs).
    exists (EvGvlAcquire :: evs). split.
    + by rewrite <- !(assoc_L (++)).
    + unfold observe in *. by rewrite filter_cons_False by done.
Qed.

Lemma plain_new : plain new_func_id.
Proof. unfold plain. set_solver. Qed.
Lemma plain_on_open : plain on_open_func_id.
Proof. unfold plain. set_solver. Qed.
Lemma plain_on_close : plain on_close_func_id.
Proof. unfold plain. set_solver. Qed.

(** C3. A connection opens: the constructor of the configured class is
    called through the gateway with no argument.  When it gives [nil] the
    connection is closed and nothing else happens: the Registry, the
    attributes and the user-data are as before and no other call is made.
    Otherwise the object is added to the Registry, has its [fd] and server
    handle set, becomes the user-data of the connection, and its [on_open]
    is called, in this order. *)
Theorem on_open_spec (server : positive) (fd : Z) (w : World) :
  let klass := default Qfalse (udata w !! 0) in
  (forall w1, call klass new_func_id w = (Return Qnil, w1) ->
     on_open server fd w = (Return tt, log (EvClose fd) w1) /\
     registry w1 = registry w /\ ivars w1 = ivars w /\ udata w1 = udata w /\
     exists evs, trace (log (EvClose fd) w1) = trace w ++ evs /\
       observe evs = [EvFuncall klass new_func_id []; EvClose fd]) /\
  (forall p w1, call klass new_func_id w = (Return p, w1) -> p <> Qnil ->
     let w' := snd (on_open server fd w) in
     registry w' = {[p]} ∪ registry w /\
     ivars w' = <[(p, server_var_id) := RData server]> (<[(p, fd_var_id) := Fixnum fd]> (ivars w)) /\
     udata w' = <[fd := p]> (udata w) /\
     exists evs, trace w' = trace w ++ evs /\
       observe evs = [EvFuncall klass new_func_id []; EvRegistryAdd p; EvSetUdata fd p;
                      EvFuncall p on_open_func_id []]).
Proof.
  intros klass. split.
  - intros w1 Hnew.
    destruct (call_plain klass new_func_id w plain_new) as [[] _].
    rewrite Hnew in *. simpl in *.
    split; [|repeat split; try done].
    + unfold on_open. unfold Server_get_udata at 1.
      erewrite bind_Return by (unfold gets; reflexivity).
      fold klass. erewrite bind_Return by exact Hnew.
      by rewrite bool_decide_eq_true_2.
    + destruct ps_trace0 as (evs & -> & Hobs).
      exists (evs ++ [EvClose fd]). split; [by rewrite <- (assoc_L (++))|].
      by rewrite observe_app, Hobs.
  - intros p w1 Hnew Hp w'.
    destruct (call_plain klass new_func_id w plain_new) as [[] _].
    rewrite Hnew in *. simpl in *.
    set (w2 := set_udata (<[fd := p]> (udata w1)) (log (EvSetUdata fd p)
        (set_ivars (<[(p, server_var_id) := RData server]>
                      (<[(p, fd_var_id) := Fixnum fd]> (ivars w1)))
          (set_registry ({[p]} ∪ registry w1) (log (EvRegistryAdd p) w1))))).
    assert (w' = snd (call p on_open_func_id w2)) as ->.
    { unfold w', on_open. unfold Server_get_udata at 1.
      erewrite bind_Return by (unfold gets; reflexivity).
      fold klass. erewrite bind_Return by exact Hnew.
      rewrite bool_decide_eq_false_2 by done.
      unfold Registry_add, rb_ivar_set, Server_set_udata, TypedData_Wrap_Struct, INT2FIX,
        emit, modify, bind at 1 2 3 4 5 6. simpl.
      unfold bind, ret.
      match goal with |- context [call p on_open_func_id ?x] =>
        replace x with w2 by (unfold w2; world) end.
      by destruct (call p on_open_func_id w2) as [[]]. }
    destruct (call_plain p on_open_func_id w2 plain_on_open) as [[] _].
    destruct ps_trace0 as (evs0 & Ht0 & Hobs0).
    destruct ps_trace1 as (evs1 & Ht1 & Hobs1).
    rewrite ps_registry1, ps_ivars1, ps_udata1, Ht1. unfold w2. simpl.
    rewrite ps_registry0, ps_ivars0, ps_udata0, Ht0.
    repeat split; try done.
    exists (evs0 ++ [EvRegistryAdd p; EvSetUdata fd p] ++ evs1). split.
    + by rewrite <- !(assoc_L (++)).
    + by rewrite !observe_app, Hobs0, Hobs1.
Qed.

(** *** Stepping through a computation *)

Lemma bind_bind {A B C} (m : M A) (f : A -> M B) (g : B -> M C) w :
  bind (bind m f) g w = bind m (fun x => bind (f x) g) w.
Proof. unfold bind. by destruct (m w) as [[]]. Qed.

Lemma bind_ret {A B} (a : A) (k : A -> M B) w : bind (ret a) k w = k a w.
Proof. done. Qed.

Lemma bind_gets {A B} (f : World -> A) (k : A -> M B) w : bind (gets f) k w = k (f w) w.
Proof. done. Qed.

Lemma bind_modify {B} (f : World -> World) (k : unit -> M B) w :
  bind (modify f) k w = k tt (f w).
Proof. done. Qed.

Lemma bind_emit {B} (e : Event) (k : unit -> M B) w : bind (emit e) k w = k tt (log e w).
Proof. done. Qed.

Ltac mstep :=
  first [ rewrite bind_bind | rewrite bind_ret | rewrite bind_gets
        | rewrite bind_modify | rewrite bind_emit ]; cbv beta.
Ltac mrun := repeat mstep.

(** *** Upgrade *)

Lemma bound_ivars self srv fd w :
  ivars w !! (self, server_var_id) = Some (RData srv) ->
  ivars w !! (self, fd_var_id) = Some (Fixnum fd) ->
  INT_MIN <= fd <= INT_MAX ->
  (let* v := rb_ivar_get self server_var_id in DATA_PTR v) w = (Return srv, w) /\
  (let* v := rb_ivar_get self fd_var_id in FIX2INT v) w = (Return fd, w).
Proof.
  intros Hs Hf Hr. unfold rb_ivar_get, bind, gets. simpl. rewrite Hs, Hf. simpl.
  unfold FIX2INT. by rewrite bool_decide_eq_true_2.
Qed.

Lemma srv_upgrade_unfold self protocol w srv fd :
  ivars w !! (self, server_var_id) = Some (RData srv) ->
  ivars w !! (self, fd_var_id) = Some (Fixnum fd) ->
  INT_MIN <= fd <= INT_MAX ->
  protocol <> Qnil ->
  srv_upgrade self protocol w =
    (let* B := (if bool_decide (TYPE protocol = T_CLASS)
                then call_unsafe protocol new_func_id
                else ret protocol) in
     if bool_decide (B = Qnil) then ret Qnil
     else fun w1 => (let* _ := call_unsafe B on_open_func_id in ret B) (upgraded srv fd self B w1))
      (set_includes ({[if bool_decide (TYPE protocol = T_CLASS) then protocol
                       else rb_obj_class protocol]} ∪ includes w) w).
Proof.
  intros Hs Hf Hr Hp. destruct (bound_ivars self srv fd w Hs Hf Hr) as [Es Ef].
  unfold srv_upgrade. rewrite bool_decide_eq_false_2 by done.
  erewrite bind_Return by exact Es. erewrite bind_Return by exact Ef.
  case_bool_decide.
  - unfold rb_include_module. mrun. simpl.
    destruct (call_unsafe protocol new_func_id
                (set_includes ({[protocol]} ∪ includes w) w)) as [[B| |] w1] eqn:E.
    + rewrite !(bind_Return _ _ _ _ _ E).
      case_bool_decide; [done|].
      unfold Server_set_udata, Registry_remove, Registry_add, rb_ivar_set,
        TypedData_Wrap_Struct, INT2FIX. mrun.
      match goal with |- context [call_unsafe B on_open_func_id] =>
        match goal with |- _ ?x = _ =>
        replace x with (upgraded srv fd self B w1) by (unfold upgraded; world) end end.
      done.
    + by rewrite !(bind_Raise _ _ _ _ _ E).
    + by rewrite !(bind_Undefined _ _ _ _ E).
  - unfold rb_include_module. mrun.
    case_bool_decide; [done|].
    unfold Server_set_udata, Registry_remove, Registry_add, rb_ivar_set,
      TypedData_Wrap_Struct, INT2FIX. mrun.
    match goal with |- _ ?x = _ =>
      replace x with (upgraded srv fd self protocol
        (set_includes ({[rb_obj_class protocol]} ∪ includes w) w))
        by (unfold upgraded; world) end.
    done.
Qed.

(** C5. When the value [upgrade] constructs is [nil] (the argument itself,
    or what the constructor of the given class returns through the
    gateway), [upgrade] returns [nil] and the connection keeps its binding:
    the user-data and the Registry are as before and the only method
    called is the constructor, so no [on_open] runs. *)
Theorem srv_upgrade_nil (self protocol : VALUE) (w : World) :
  srv_upgrade self Qnil w = (Return Qnil, w) /\
  (forall srv fd w1,
     ivars w !! (self, server_var_id) = Some (RData srv) ->
     ivars w !! (self, fd_var_id) = Some (Fixnum fd) ->
     INT_MIN <= fd <= INT_MAX ->
     TYPE protocol = T_CLASS ->
     call_unsafe protocol new_func_id (set_includes ({[protocol]} ∪ includes w) w)
       = (Return Qnil, w1) ->
     srv_upgrade self protocol w = (Return Qnil, w1) /\
     udata w1 = udata w /\ registry w1 = registry w /\ ivars w1 = ivars w /\
     exists evs, trace w1 = trace w ++ evs /\
       observe evs = [EvFuncall protocol new_func_id []]).
Proof.
  split; [done|].
  intros srv fd w1 Hs Hf Hr Hc Hnew.
  assert (protocol <> Qnil) as Hp by (by intros ->).
  rewrite (srv_upgrade_unfold self protocol w srv fd Hs Hf Hr Hp).
  rewrite !bool_decide_eq_true_2 by done.
  rewrite (bind_Return _ _ _ _ _ Hnew). split; [done|].
  destruct (call_unsafe_plain protocol new_func_id
              (set_includes ({[protocol]} ∪ includes w) w) plain_new) as [[] _].
  rewrite Hnew in *. simpl in *. done.
Qed.

(** C4. A successful upgrade of the connection [fd] that [self] is bound
    to: the new object [B] ([protocol] itself, or the instance its
    constructor returned) is the connection's user-data, [self] has left
    the Registry and [B] is in it, [B] holds the [fd] and the server
    handle, and the calls made are, in this order, the constructor (for a
    class), [Server.set_udata], [Registry.remove(self)], [Registry.add(B)]
    and one [on_open] on [B]: no [on_close] on [self]. *)
Theorem srv_upgrade_success (self protocol B : VALUE) (w w' : World) (srv : positive) (fd : Z) :
  ivars w !! (self, server_var_id) = Some (RData srv) ->
  ivars w !! (self, fd_var_id) = Some (Fixnum fd) ->
  INT_MIN <= fd <= INT_MAX ->
  srv_upgrade self protocol w = (Return B, w') ->
  B <> Qnil ->
  (TYPE protocol <> T_CLASS -> B = protocol) /\
  udata w' = <[fd := B]> (udata w) /\
  registry w' = {[B]} ∪ (registry w ∖ {[self]}) /\
  ivars w' = <[(B, server_var_id) := RData srv]> (<[(B, fd_var_id) := Fixnum fd]> (ivars w)) /\
  exists evs, trace w' = trace w ++ evs /\
    observe evs =
      (if bool_decide (TYPE protocol = T_CLASS) then [EvFuncall protocol new_func_id []] else [])
      ++ [EvSetUdata fd B; EvRegistryRemove self; EvRegistryAdd B;
          EvFuncall B on_open_func_id []].
Proof.
  intros Hs Hf Hr Hup HB.
  assert (protocol <> Qnil) as Hp.
  { intros ->. unfold srv_upgrade in Hup. simpl in Hup. by injection Hup as <- _. }
  rewrite (srv_upgrade_unfold self protocol w srv fd Hs Hf Hr Hp) in Hup.
  assert (forall B0 w1, registry w1 = registry w -> udata w1 = udata w -> ivars w1 = ivars w ->
    (exists evs, trace w1 = trace w ++ evs /\
       observe evs = if bool_decide (TYPE protocol = T_CLASS)
                     then [EvFuncall protocol new_func_id []] else []) ->
    (let* _ := call_unsafe B0 on_open_func_id in ret B0) (upgraded srv fd self B0 w1)
      = (Return B, w') ->
    B0 = B /\
    udata w' = <[fd := B]> (udata w) /\
    registry w' = {[B]} ∪ (registry w ∖ {[self]}) /\
    ivars w' = <[(B, server_var_id) := RData srv]> (<[(B, fd_var_id) := Fixnum fd]> (ivars w)) /\
    exists evs, trace w' = trace w ++ evs /\
      observe evs =
        (if bool_decide (TYPE protocol = T_CLASS) then [EvFuncall protocol new_func_id []] else [])
        ++ [EvSetUdata fd B; EvRegistryRemove self; EvRegistryAdd B;
            EvFuncall B on_open_func_id []]) as Htail.
  { intros B0 w1 Hreg Hud Hiv (evs1 & Ht1 & Hobs1) Hrun.
    destruct (call_unsafe_plain B0 on_open_func_id (upgraded srv fd self B0 w1) plain_on_open)
      as [[] _].
    unfold bind in Hrun.
    destruct (call_unsafe B0 on_open_func_id (upgraded srv fd self B0 w1)) as [[v|e|] w2];
      try done.
    unfold ret in Hrun. injection Hrun as -> ->. simpl in *.
    rewrite ps_udata0, ps_registry0, ps_ivars0, Hreg, Hud, Hiv.
    repeat split; try done.
    destruct ps_trace0 as (evs2 & -> & Hobs2). rewrite Ht1.
    exists (evs1 ++ [EvSetUdata fd B; EvRegistryRemove self; EvRegistryAdd B] ++ evs2).
    split; [by rewrite <- !(assoc_L (++))|].
    by rewrite !observe_app, Hobs1, Hobs2. }
  case_bool_decide as Hc.
  - destruct (call_unsafe_plain protocol new_func_id
                (set_includes ({[protocol]} ∪ includes w) w) plain_new) as [[] _].
    unfold bind at 1 in Hup.
    destruct (call_unsafe protocol new_func_id _) as [[B0| |] w1]; try done.
    simpl in *. case_bool_decide; [by injection Hup as <- _|].
    destruct (Htail B0 w1) as (-> & ?); try done.
  - rewrite bind_ret in Hup. case_bool_decide; [done|].
    destruct (Htail protocol (set_includes ({[rb_obj_class protocol]} ∪ includes w) w))
      as (-> & ?); try done.
    exists []. by rewrite (right_id_L [] (++)).
Qed.

(** *** Ping *)



(** *** Read *)

Lemma take_incoming_bounds len q n d q' :
  take_incoming len q = (n, d, q') ->
  n <= Z.max 0 len /\ (0 <= n -> n = Z.of_nat (length d)) /\ -1 <= n.
Proof.
  destruct q as [|[data|c] q]; simpl.
  - intros [= <- <- <-]. simpl. lia.
  - case_bool_decide; intros [= <- <- <-].
    + lia.
    + rewrite length_take. lia.
  - intros [= <- <- <-]. simpl. lia.
Qed.

Lemma Server_read_run fd a len w s :
  strs w !! a = Some s ->
  Server_read fd a len w =
    let '(n, d, rest) := take_incoming len (default [] (inbox w !! fd)) in
    (Return n,
     log (EvRead fd len n)
       (set_inbox (<[fd := rest]> (inbox w))
          (set_strs (<[a := {| s_mem := d ++ drop (length d) (s_mem s);
                               s_len := s_len s; s_capa := s_capa s |}]> (strs w)) w))).
Proof. intros H. unfold Server_read. by rewrite H. Qed.

(** The part of [srv_read] that follows the choice of the buffer: the
    read itself and the length of the result. *)
Lemma srv_read_tail (str : VALUE) (len fd : Z) (a : positive) (s : RStr) (w : World) :
  str = RString a -> strs w !! a = Some s -> 0 <= len <= s_capa s ->
  exists n d rest s',
    take_incoming len (default [] (inbox w !! fd)) = (n, d, rest) /\
    s' = {| s_mem := d ++ drop (length d) (s_mem s);
            s_len := (if bool_decide (n > 0) then n else 0); s_capa := s_capa s |} /\
    (let* ptr := RSTRING_PTR str in
     let* n := Server_read fd ptr len in
     let* _ := (if bool_decide (n > 0) then rb_str_set_len str n
                else rb_str_set_len str 0) in
     ret str) w =
    (Return str,
     set_strs (<[a := s']> (strs w))
       (set_inbox (<[fd := rest]> (inbox w)) (log (EvRead fd len n) w))).
Proof.
  intros -> Hs Hlen.
  destruct (take_incoming len (default [] (inbox w !! fd))) as [[n d] rest] eqn:Et.
  exists n, d, rest. eexists. split; [done|]. split; [done|].
  destruct (take_incoming_bounds _ _ _ _ _ Et) as (Hn1 & Hn2 & Hn3).
  unfold RSTRING_PTR, RSTRING. mrun.
  unfold bind at 1. rewrite Hs. mrun.
  unfold bind at 1. rewrite (Server_read_run fd a len w s Hs), Et.
  unfold rb_str_set_len, RSTRING.
  case_bool_decide.
  - mrun. unfold bind at 1. simpl. rewrite lookup_insert_eq. mrun. simpl.
    rewrite bool_decide_eq_true_2 by lia.
    unfold store_str. mrun. unfold ret. f_equal. world. simpl.
    by rewrite insert_insert_eq.
  - mrun. unfold bind at 1. simpl. rewrite lookup_insert_eq. mrun. simpl.
    rewrite bool_decide_eq_true_2 by lia.
    unfold store_str. mrun. unfold ret. f_equal. world. simpl.
    by rewrite insert_insert_eq.
Qed.

Lemma srv_read_buffer (self : VALUE) (fd : Z) (a : positive) (s : RStr) (w : World) :
  (let* v := rb_ivar_get self fd_var_id in FIX2INT v) w = (Return fd, w) ->
  strs w !! a = Some s ->
  0 <= s_len s <= s_capa s ->
  exists n d rest,
    take_incoming (Z.max 1024 (s_capa s)) (default [] (inbox w !! fd)) = (n, d, rest) /\
    srv_read [RString a] self w =
      (Return (RString a),
       set_strs (<[a := {| s_mem := d ++ drop (length d) (s_mem s);
                           s_len := (if bool_decide (n > 0) then n else 0);
                           s_capa := Z.max 1024 (s_capa s) |}]> (strs w))
         (set_inbox (<[fd := rest]> (inbox w))
            (log (EvRead fd (Z.max 1024 (s_capa s)) n) w))).
Proof.
  intros Ef Hs Hlen.
  destruct (take_incoming (Z.max 1024 (s_capa s)) (default [] (inbox w !! fd)))
    as [[n d] rest] eqn:Et.
  exists n, d, rest. split; [done|].
  unfold srv_read. simpl.
  erewrite bind_Return by exact Ef.
  unfold rb_str_capacity, RSTRING. mrun. unfold bind at 1. rewrite Hs. mrun.
  case_bool_decide as Hcap.
  - unfold rb_str_resize. simpl. unfold RSTRING. mrun. unfold bind at 1. rewrite Hs. mrun.
    rewrite bool_decide_eq_false_2 by lia.
    rewrite bool_decide_eq_true_2 by lia.
    unfold store_str. mrun.
    replace (Z.max 1024 (s_capa s)) with 1024 in * by lia.
    edestruct (srv_read_tail (RString a) 1024 fd a
      {| s_mem := s_mem s; s_len := 1024; s_capa := 1024 |}
      (set_strs (<[a := {| s_mem := s_mem s; s_len := 1024; s_capa := 1024 |}]> (strs w)) w))
      as (n' & d' & rest' & s' & Et' & -> & Hrun); [done| |simpl; lia|].
    { simpl. apply lookup_insert_eq. }
    simpl in Et', Hrun. rewrite Hrun. rewrite Et in Et'. injection Et' as <- <- <-.
    f_equal. world. simpl. by rewrite insert_insert_eq.
  - replace (Z.max 1024 (s_capa s)) with (s_capa s) in * by lia.
    edestruct (srv_read_tail (RString a) (s_capa s) fd a s w) as
      (n' & d' & rest' & s' & Et' & -> & Hrun); [done|done|lia|].
    mrun. rewrite Hrun. rewrite Et in Et'. by injection Et' as <- <- <-.
Qed.

Lemma bind_ext {A B} (m : M A) (k1 k2 : A -> M B) w :
  (forall a w1, k1 a w1 = k2 a w1) -> bind m k1 w = bind m k2 w.
Proof. intros H. unfold bind. destruct (m w) as [[]]; by rewrite ?H. Qed.



Lemma srv_read_new (fd L : Z) (w : World) :
  0 < L ->
  exists n d rest,
    (let* str := rb_str_buf_new L in
     let* ptr := RSTRING_PTR str in
     let* n := Server_read fd ptr L in
     let* _ := (if bool_decide (n > 0) then rb_str_set_len str n
                else rb_str_set_len str 0) in
     ret str) w =
    (Return (RString (next_id w)),
     set_strs (<[next_id w := {| s_mem := d ++ drop (length d) [];
                                 s_len := (if bool_decide (n > 0) then n else 0);
                                 s_capa := Z.max L STR_BUF_MIN_SIZE |}]> (strs w))
       (set_next_id (Pos.succ (next_id w))
          (set_inbox (<[fd := rest]> (inbox w)) (log (EvRead fd L n) w)))).
Proof.
  intros HL. unfold rb_str_buf_new, fresh_addr. mrun. unfold bind at 1. mrun.
  edestruct (srv_read_tail (RString (next_id w)) L fd (next_id w)
    {| s_mem := []; s_len := 0; s_capa := Z.max L STR_BUF_MIN_SIZE |}
    (set_strs (<[next_id w := {| s_mem := []; s_len := 0;
                                 s_capa := Z.max L STR_BUF_MIN_SIZE |}]>
                 (strs (set_next_id (Pos.succ (next_id w)) w)))
       (set_next_id (Pos.succ (next_id w)) w)))
    as (n & d & rest & s' & Et & -> & Hrun); [done| |simpl; lia|].
  { simpl. apply lookup_insert_eq. }
  rewrite Hrun. exists n, d, rest. f_equal. world. simpl. by rewrite insert_insert_eq.
Qed.


(** *** The default on_data *)





Lemma bound_fd_ivar self fd w :
  ivars w !! (self, fd_var_id) = Some (Fixnum fd) ->
  INT_MIN <= fd <= INT_MAX ->
  (let* v := rb_ivar_get self fd_var_id in FIX2INT v) w = (Return fd, w).
Proof.
  intros Hf Hr. unfold rb_ivar_get. mrun. rewrite Hf. simpl.
  unfold FIX2INT. by rewrite bool_decide_eq_true_2.
Qed.


(** *** The Registry and what lib-server holds *)







Lemma on_open_unfold server fd w :
  on_open server fd w =
    (let* p := call (default Qfalse (udata w !! 0)) new_func_id in
     if bool_decide (p = Qnil) then emit (EvClose fd)
     else fun w1 => (let* _ := call p on_open_func_id in ret tt) (opened server fd p w1)) w.
Proof.
  unfold on_open, Server_get_udata. mrun. apply bind_ext. intros p w1.
  case_bool_decide; [done|].
  unfold Registry_add, rb_ivar_set, Server_set_udata, TypedData_Wrap_Struct, INT2FIX. mrun.
  match goal with |- _ ?x = _ => replace x with (opened server fd p w1)
    by (unfold opened; world) end.
  done.
Qed.

Lemma on_open_state server fd w w' :
  completes (on_open server fd) w w' ->
  (registry w' = registry w /\ udata w' = udata w /\ tasks w' = tasks w) \/
  (exists p, constructed w p /\
     registry w' = {[p]} ∪ registry w /\ udata w' = <[fd := p]> (udata w) /\
     tasks w' = tasks w).
Proof.
  intros (out & Hrun & Hout). rewrite on_open_unfold in Hrun.
  destruct (call_plain (default Qfalse (udata w !! 0)) new_func_id w plain_new) as [[] _].
  unfold bind at 1 in Hrun.
  destruct (call (default Qfalse (udata w !! 0)) new_func_id w) as [[p|e|] w1] eqn:Hnew;
    simpl in *.
  - case_bool_decide as Hp.
    + injection Hrun as <- <-. left. simpl. done.
    + right. exists p. split; [split; [done|by exists w1]|].
      destruct (call_plain p on_open_func_id (opened server fd p w1) plain_on_open) as [[] _].
      unfold bind in Hrun.
      destruct (call p on_open_func_id (opened server fd p w1)) as [[v|e|] w2];
        simpl in *; injection Hrun as <- <-; try done;
        by rewrite ps_registry1, ps_udata1, ps_tasks1, ps_registry0, ps_udata0, ps_tasks0.
  - injection Hrun as <- <-. by left.
  - injection Hrun as <- <-. by left.
Qed.


Arguments rb_yield : simpl never.
Arguments Registry_add : simpl never.
Arguments Registry_remove : simpl never.
Arguments Server_run_async : simpl never.
Arguments Server_fd_task : simpl never.

Ltac mstep_in H :=
  first [ rewrite bind_bind in H | rewrite bind_ret in H | rewrite bind_gets in H
        | rewrite bind_modify in H | rewrite bind_emit in H ]; cbv beta in H.
Tactic Notation "mrun" "in" hyp(H) := repeat mstep_in H.








(** *** The Registry at concrete states *)

Lemma completes_run {A} (m : M A) (w w' : World) :
  w' = snd (m w) -> fst (m w) <> Undefined -> completes m w w'.
Proof. intros -> H. exists (fst (m w)). by destruct (m w). Qed.









(** ** The claims at concrete inputs *)

(** C1. An error raised without a message is not contained: in
    [handle_exception] the message is [nil], and [RSTRING_PTR] of it is
    undefined behaviour.  An error with a String message is printed and
    cleared, and the gateway returns [nil]. *)
Theorem gateway_undefined_on_error_without_message :
  fst (call_unsafe (RObject "Strict" 1) on_close_func_id (connected "Strict" 2)) = Undefined /\
  fst (call (RObject "Strict" 1) on_close_func_id (connected "Strict" 2)) = Undefined /\
  fst (on_close the_server 5 (connected "Strict" 2)) = Undefined /\
  (let '(r, w) := call_unsafe (RClass "Broken") new_func_id (started "Broken" 2) in
   r = Return Qnil /\ errinfo w = Qnil /\
   trace w = [EvFuncall (RClass "Broken") new_func_id [];
              EvStderr (error_line "RuntimeError" "cannot build"); EvBacktrace]).
Proof. by vm_compute. Qed.

(** C8. With [threads = -1], [run] and [defer] warn and yield to the block,
    and then register the block and hand it to lib-server all the same. *)
Theorem sync_mode_still_submits :
  (let '(r, w) := run_async (RObject "Echo" 1) (Some (RProc 1)) (connected "Echo" (-1)) in
   r = Return (RProc 1) /\ tasks w = [AsyncTask (RProc 1)] /\
   drop (length (trace (connected "Echo" (-1)))) (trace w) =
     [EvWarn async_warning; EvYield (RProc 1) [(Qnil, [])];
      EvRegistryAdd (RProc 1); EvRunAsync (RProc 1)]) /\
  (let '(r, w) := run_protocol_task (RObject "Echo" 1) (Some (RProc 1))
                    (connected "Echo" (-1)) in
   r = Return (RProc 1) /\ tasks w = [FdTask 5 (RProc 1)] /\
   drop (length (trace (connected "Echo" (-1)))) (trace w) =
     [EvWarn async_warning; EvYield (RProc 1) [(Qnil, [])];
      EvRegistryAdd (RProc 1); EvFdTask 5 (RProc 1)]).
Proof. by vm_compute. Qed.

(** C9. [start] with 500 threads and 100 processes raises nothing and
    starts the server with these counts. *)
Theorem srv_start_accepts_counts_out_of_range :
  let '(r, w) := srv_start (RObject "Iodine" 1) (configured (Fixnum 500) (Fixnum 100)) in
  r = Return Qnil /\
  EvListen {| s_timeout := 10; s_threads := 500; s_processes := 100;
              s_port := Some "3000"; s_address := None;
              s_udata := RObject "Iodine" 1; s_busy_msg := None |} ∈ trace w.
Proof.
  destruct (srv_start _ _) as [r w] eqn:E. vm_compute in E.
  injection E as <- <-. split; [done|]. cbn [trace]. rewrite !elem_of_cons. auto.
Qed.





Lemma on_open_spec_witness :
  (let w := started "Broken" 2 in
   let w1 := snd (call (RClass "Broken") new_func_id w) in
   call (RClass "Broken") new_func_id w = (Return Qnil, w1) /\
   on_open the_server 5 w = (Return tt, log (EvClose 5) w1) /\
   registry w1 = registry w /\ ivars w1 = ivars w /\ udata w1 = udata w /\
   exists evs, trace (log (EvClose 5) w1) = trace w ++ evs /\
     observe evs = [EvFuncall (RClass "Broken") new_func_id []; EvClose 5]) /\
  (let w := started "Echo" 2 in
   let p := RObject "Echo" 1 in
   let w' := snd (on_open the_server 5 w) in
   fst (call (RClass "Echo") new_func_id w) = Return p /\
   registry w' = {[p]} ∪ registry w /\
   ivars w' = <[(p, server_var_id) := RData the_server]> (<[(p, fd_var_id) := Fixnum 5]> (ivars w)) /\
   udata w' = <[5 := p]> (udata w) /\
   exists evs, trace w' = trace w ++ evs /\
     observe evs = [EvFuncall (RClass "Echo") new_func_id []; EvRegistryAdd p; EvSetUdata 5 p;
                    EvFuncall p on_open_func_id []]).
Proof.
  split.
  - assert (call (RClass "Broken") new_func_id (started "Broken" 2)
            = (Return Qnil, snd (call (RClass "Broken") new_func_id (started "Broken" 2)))) as Hnew
      by (vm_compute; reflexivity).
    split; [exact Hnew|].
    exact (proj1 (on_open_spec the_server 5 (started "Broken" 2)) _ Hnew).
  - assert (call (RClass "Echo") new_func_id (started "Echo" 2)
            = (Return (RObject "Echo" 1), snd (call (RClass "Echo") new_func_id (started "Echo" 2))))
      as Hnew by (vm_compute; reflexivity).
    split; [by vm_compute|].
    exact (proj2 (on_open_spec the_server 5 (started "Echo" 2)) _ _ Hnew ltac:(discriminate)).
Defined.

Lemma srv_upgrade_success_witness :
  let self := RObject "Echo" 1 in
  let B := RObject "Chat" 2 in
  let w := connected "Echo" 2 in
  let w' := upgraded_once in
  srv_upgrade self (RClass "Chat") w = (Return B, w') /\
  udata w' = <[5 := B]> (udata w) /\
  registry w' = {[B]} ∪ (registry w ∖ {[self]}) /\
  ivars w' = <[(B, server_var_id) := RData the_server]> (<[(B, fd_var_id) := Fixnum 5]> (ivars w)) /\
  exists evs, trace w' = trace w ++ evs /\
    observe evs =
      [EvFuncall (RClass "Chat") new_func_id []; EvSetUdata 5 B; EvRegistryRemove self;
       EvRegistryAdd B; EvFuncall B on_open_func_id []].
Proof.
  intros self B w w'.
  assert (srv_upgrade self (RClass "Chat") w = (Return B, w')) as Hrun by (vm_compute; reflexivity).
  split; [exact Hrun|].
  refine (proj2 (srv_upgrade_success self (RClass "Chat") B w w' the_server 5 _ _ _ Hrun _));
    by vm_compute.
Defined.

Lemma srv_upgrade_nil_witness :
  let self := RObject "Echo" 1 in
  let w := connected "Echo" 2 in
  let w1 := snd (call_unsafe (RClass "Broken") new_func_id
                   (set_includes ({[RClass "Broken"]} ∪ includes w) w)) in
  srv_upgrade self Qnil w = (Return Qnil, w) /\
  srv_upgrade self (RClass "Broken") w = (Return Qnil, w1) /\
  udata w1 = udata w /\ registry w1 = registry w /\ ivars w1 = ivars w /\
  exists evs, trace w1 = trace w ++ evs /\
    observe evs = [EvFuncall (RClass "Broken") new_func_id []].
Proof.
  intros self w w1. split.
  - exact (proj1 (srv_upgrade_nil self Qnil w)).
  - refine (proj2 (srv_upgrade_nil self (RClass "Broken") w) the_server 5 w1 _ _ _ _ _);
      by vm_compute.
Defined.



(** * More properties of the bridge *)

(** ** The gateway: every outcome *)

Lemma call_unsafe_Raise recv mid w e w1 :
  rb_funcall recv mid [] w = (Raise e, w1) ->
  (fst (call_unsafe recv mid w) = Return Qnil /\ errinfo (snd (call_unsafe recv mid w)) = Qnil) \/
  (fst (call_unsafe recv mid w) = Undefined /\ errinfo (snd (call_unsafe recv mid w)) = e).
Proof.
  intros Hrun.
  unfold call_unsafe, rb_protect, run_ruby_method_unsafe, bind. simpl.
  rewrite Hrun. simpl. unfold handle_exception, rb_errinfo, bind, gets. simpl.
  case_bool_decide as He; simpl.
  - destruct (rb_attr_get_mesg e); simpl; [by right|by left].
  - left. split; [done|]. by destruct (decide (e = Qnil)).
Qed.

(** X1. Whatever the method does, the gateway [call_unsafe] raises
    nothing: a value the method returns is returned as it is, with the
    world the method left; when the method raises, the gateway returns
    [nil] with the pending error cleared, or ends in undefined behaviour
    with the error still pending. *)
Theorem call_unsafe_outcomes (recv : VALUE) (mid : ID) (w : World) :
  match rb_funcall recv mid [] w, call_unsafe recv mid w with
  | (Return v, w1), r => r = (Return v, w1)
  | (Raise e, w1), (r, w2) =>
      (r = Return Qnil /\ errinfo w2 = Qnil) \/ (r = Undefined /\ errinfo w2 = e)
  | (Undefined, w1), r => r = (Undefined, w1)
  end.
Proof.
  destruct (rb_funcall recv mid [] w) as [[v|e|] w1] eqn:Hrun.
  - by apply call_unsafe_Return.
  - pose proof (call_unsafe_Raise recv mid w e w1 Hrun) as H.
    by destruct (call_unsafe recv mid w).
  - by apply call_unsafe_Undefined.
Qed.

Lemma call_unsafe_no_Raise recv mid w e : fst (call_unsafe recv mid w) <> Raise e.
Proof.
  destruct (rb_funcall recv mid [] w) as [[v|e'|] w1] eqn:Hrun.
  - by rewrite (call_unsafe_Return _ _ _ _ _ Hrun).
  - destruct (call_unsafe_Raise recv mid w e' w1 Hrun) as [[-> _]|[-> _]]; done.
  - by rewrite (call_unsafe_Undefined _ _ _ _ Hrun).
Qed.

(** X2. [call] is [call_unsafe] run with the global lock: the lock is
    taken first, the outcome is that of [call_unsafe], and the lock is
    given back when it returns.  Nothing is raised. *)
Theorem call_takes_the_lock (recv : VALUE) (mid : ID) (w : World) :
  match call_unsafe recv mid (log EvGvlAcquire w) with
  | (Return v, w1) => call recv mid w = (Return v, log EvGvlRelease w1)
  | (Raise e, w1) => False
  | (Undefined, w1) => call recv mid w = (Undefined, w1)
  end.
Proof.
  rewrite call_unsafe_call.
  pose proof (call_unsafe_no_Raise recv mid (log EvGvlAcquire w)) as H.
  destruct (call_unsafe recv mid (log EvGvlAcquire w)) as [[v'|e'|] w2]; try done.
  by destruct (H e').
Qed.

(** ** The callbacks lib-server calls *)

Lemma events_without_object_aux (server : positive) (fd : Z) (w : World) :
  default Qfalse (udata w !! fd) = Qfalse ->
  on_close server fd w = (Return tt, w) /\
  on_data server fd w = (Return tt, w) /\
  ping server fd w = (Return tt, w) /\
  on_shutdown server fd w = (Return tt, w).
Proof.
  intros H.
  unfold on_data, ping, on_shutdown, on_close, Server_get_udata.
  rewrite !bind_gets, H. done.
Qed.

(** X3. An event on a connection that has no protocol object (no
    user-data, or the null pointer that [on_close] leaves) does nothing:
    [on_data], [ping], [on_shutdown] and [on_close] return at once, with
    no call into Ruby and no change. *)
Theorem events_without_object (server : positive) (fd : Z) (w : World) :
  default Qfalse (udata w !! fd) = Qfalse ->
  on_data server fd w = (Return tt, w) /\
  ping server fd w = (Return tt, w) /\
  on_shutdown server fd w = (Return tt, w) /\
  on_close server fd w = (Return tt, w).
Proof.
  intros H. destruct (events_without_object_aux server fd w H) as (? & ? & ? & ?). done.
Qed.

Lemma events_without_object_witness :
  default Qfalse (udata (connected "Echo" 2) !! 7) = Qfalse /\
  on_data the_server 7 (connected "Echo" 2) = (Return tt, connected "Echo" 2) /\
  ping the_server 7 (connected "Echo" 2) = (Return tt, connected "Echo" 2) /\
  on_shutdown the_server 7 (connected "Echo" 2) = (Return tt, connected "Echo" 2) /\
  on_close the_server 7 (connected "Echo" 2) = (Return tt, connected "Echo" 2).
Proof.
  assert (default Qfalse (udata (connected "Echo" 2) !! 7) = Qfalse) as H
    by (vm_compute; reflexivity).
  split; [exact H|]. exact (events_without_object the_server 7 (connected "Echo" 2) H).
Defined.

(** What [on_close] does for a bound connection. *)
Lemma on_close_run server fd w p :
  udata w !! fd = Some p -> p <> Qfalse ->
  on_close server fd w =
    match call p on_close_func_id w with
    | (Return _, w1) =>
        (Return tt,
         set_udata (<[fd := Qfalse]> (udata w1))
           (set_registry (registry w1 ∖ {[p]})
              (set_trace (trace w1 ++ [EvRegistryRemove p; EvSetUdata fd Qfalse]) w1)))
    | (Raise e, w1) => (Raise e, w1)
    | (Undefined, w1) => (Undefined, w1)
    end.
Proof.
  intros Hp Hnull. unfold on_close, Server_get_udata. rewrite bind_gets, Hp. simpl.
  unfold is_null. rewrite bool_decide_eq_false_2 by done.
  unfold bind at 1. destruct (call p on_close_func_id w) as [[v|e|] w1]; try done.
  unfold Registry_remove, Server_set_udata. mrun. unfold modify. f_equal. world.
Qed.


(** X5. A connection that opens and then closes leaves the Registry as it
    was: the object [on_open] registered is the one [on_close] removes,
    and the connection ends with no protocol object.  (The connection was
    free, and the constructed object was not registered before.) *)
Theorem open_close_round_trip (server : positive) (fd : Z) (w w1 w2 : World) :
  default Qfalse (udata w !! fd) = Qfalse ->
  (forall p, constructed w p -> p <> Qfalse /\ p ∉ registry w) ->
  completes (on_open server fd) w w1 ->
  completes (on_close server fd) w1 w2 ->
  registry w2 = registry w /\ default Qfalse (udata w2 !! fd) = Qfalse /\ tasks w2 = tasks w.
Proof.
  intros Hfree Hnew Hopen (out & Hclose & Hout).
  destruct (on_open_state _ _ _ _ Hopen) as [(Hr & Hu & Ht)|(p & Hp & Hr & Hu & Ht)].
  - assert (default Qfalse (udata w1 !! fd) = Qfalse) as Hfree1 by (by rewrite Hu).
    destruct (events_without_object_aux server fd w1 Hfree1) as [Hc _].
    rewrite Hc in Hclose. injection Hclose as <- <-. done.
  - destruct (Hnew p Hp) as [Hpf Hpr].
    assert (udata w1 !! fd = Some p) as Hb by (by rewrite Hu, lookup_insert_eq).
    rewrite (on_close_run server fd w1 p Hb Hpf) in Hclose.
    destruct (call_plain p on_close_func_id w1 plain_on_close)
      as [[_ _ _ _ Hreg _ _ Htk _ _ _ _] Hnr].
    destruct (call p on_close_func_id w1) as [[v|e|] w1']; simpl in *.
    + injection Hclose as <- <-. simpl.
      rewrite Hreg, Htk, Hr, Ht, lookup_insert_eq.
      split; [|done]. apply set_eq. intros x.
      rewrite elem_of_difference, elem_of_union, elem_of_singleton.
      split; [by intros [[->|?] ?]|]. intros Hx. split; [by right|by intros ->].
    + by destruct (Hnr e).
    + injection Hclose as <- <-. done.
Qed.

Lemma open_close_round_trip_witness :
  let w := started "Echo" 2 in
  let w2 := snd (on_close the_server 5 (connected "Echo" 2)) in
  default Qfalse (udata w !! 5) = Qfalse /\
  completes (on_open the_server 5) w (connected "Echo" 2) /\
  completes (on_close the_server 5) (connected "Echo" 2) w2 /\
  registry w2 = registry w /\ default Qfalse (udata w2 !! 5) = Qfalse /\ tasks w2 = tasks w.
Proof.
  intros w w2.
  assert (default Qfalse (udata w !! 5) = Qfalse) as Hfree by (vm_compute; reflexivity).
  assert (completes (on_open the_server 5) w (connected "Echo" 2)) as Hopen.
  { apply completes_run; [reflexivity|]. vm_compute. discriminate. }
  assert (completes (on_close the_server 5) (connected "Echo" 2) w2) as Hclose.
  { apply completes_run; [reflexivity|]. vm_compute. discriminate. }
  split; [exact Hfree|]. split; [exact Hopen|]. split; [exact Hclose|].
  apply (open_close_round_trip the_server 5 w (connected "Echo" 2) w2 Hfree); [|exact Hopen|exact Hclose].
  intros p (Hp & w1 & Hnew).
  assert (fst (call (default Qfalse (udata w !! 0)) new_func_id w) = Return p) as Hp'
    by (by rewrite Hnew).
  vm_compute in Hp'. injection Hp' as <-.
  split; [done|]. apply (bool_decide_unpack _). vm_compute. exact I.
Defined.

(** X6. [on_shutdown] only tells the object: it calls [on_shutdown] on
    the connection's protocol object once, raises nothing, and leaves the
    Registry, the user-data, the attributes and the task queue alone (the
    connection stays bound and registered until [on_close]). *)
Theorem on_shutdown_keeps_binding (server : positive) (fd : Z) (w : World) :
  let w' := snd (on_shutdown server fd w) in
  let p := default Qfalse (udata w !! fd) in
  registry w' = registry w /\ udata w' = udata w /\ tasks w' = tasks w /\
  ivars w' = ivars w /\
  (exists evs, trace w' = trace w ++ evs /\
     observe evs = if is_null p then [] else [EvFuncall p on_shutdown_func_id []]) /\
  (forall e, fst (on_shutdown server fd w) <> Raise e).
Proof.
  intros w' p. subst w'. unfold on_shutdown, Server_get_udata. rewrite bind_gets. fold p.
  destruct (is_null p) eqn:Hnull; simpl.
  - repeat split; try done. exists []. by rewrite app_nil_r.
  - assert (plain on_shutdown_func_id) as Hpl by (unfold plain; set_solver).
    destruct (call_plain p on_shutdown_func_id w Hpl)
      as [[_ Hiv _ _ Hreg _ Hud Htk _ _ _ Htr] Hnr].
    unfold bind.
    destruct (call p on_shutdown_func_id w) as [[v|e|] w1]; simpl in *;
      try (by destruct (Hnr e)); repeat split; try done.
Qed.

(** X7. [on_data] for an object that does not define [on_data] itself
    and whose class includes the Protocol module runs the default,
    [def_on_data], holding the global lock; when the default returns,
    [on_data] returns with the world the default left. *)
Theorem on_data_runs_default (server : positive) (fd : Z) (w w1 : World) (p v : VALUE) :
  udata w !! fd = Some p -> p <> Qfalse ->
  code w p on_data_func_id = None ->
  rb_obj_class p ∈ includes w ->
  def_on_data p (log (EvFuncall p on_data_func_id []) (log EvGvlAcquire w)) = (Return v, w1) ->
  on_data server fd w = (Return tt, log EvGvlRelease w1).
Proof.
  intros Hp Hnull Hcode Hincl Hrun.
  unfold on_data, Server_get_udata. rewrite bind_gets, Hp. simpl.
  unfold is_null. rewrite bool_decide_eq_false_2 by done.
  assert (rb_funcall p on_data_func_id [] (log EvGvlAcquire w) = (Return v, w1)) as Hcall.
  { unfold rb_funcall.
    erewrite rb_funcall_with_table by (try done; reflexivity).
    unfold arity0. exact Hrun. }
  apply call_unsafe_Return in Hcall.
  unfold bind. rewrite call_unsafe_call, Hcall. done.
Qed.

Lemma on_data_runs_default_witness :
  let p := RObject "Echo" 1 in
  let w1 := snd (def_on_data p (log (EvFuncall p on_data_func_id []) (log EvGvlAcquire two_chunks))) in
  on_data the_server 5 two_chunks = (Return tt, log EvGvlRelease w1) /\
  observe (drop (length (trace two_chunks)) (trace (snd (on_data the_server 5 two_chunks)))) =
    [EvFuncall p on_data_func_id [];
     EvRead 5 1024 1024;
     EvFuncall p on_message_func_id [(RString 2, replicate 1024 97)];
     EvRead 5 1024 1024;
     EvFuncall p on_message_func_id [(RString 2, replicate 1024 98)];
     EvRead 5 1024 0].
Proof.
  intros p w1. split; [|vm_compute; reflexivity].
  apply (on_data_runs_default the_server 5 two_chunks w1 p Qnil).
  - vm_compute; reflexivity.
  - done.
  - vm_compute; reflexivity.
  - apply (bool_decide_unpack _). vm_compute. exact I.
  - assert (fst (def_on_data p (log (EvFuncall p on_data_func_id []) (log EvGvlAcquire two_chunks)))
            = Return Qnil) as H by (vm_compute; reflexivity).
    subst w1. destruct (def_on_data p _) as [o w']. simpl in H. by rewrite H.
Defined.

(** ** Tasks *)


(** X9. [run] and [defer] called without a block raise a LocalJumpError
    before anything else happens; called with a block on an object that
    holds no server handle they are undefined behaviour ([DATA_PTR] of
    [nil]), with nothing registered or queued. *)
Theorem run_without_block_or_handle (self b : VALUE) (w : World) :
  run_async self None w
    = (Raise (RException "LocalJumpError" (MesgStr "no block given (yield)")), w) /\
  run_protocol_task self None w
    = (Raise (RException "LocalJumpError" (MesgStr "no block given (yield)")), w) /\
  (ivars w !! (self, server_var_id) = None ->
   run_async self (Some b) w = (Undefined, w) /\
   run_protocol_task self (Some b) w = (Undefined, w)).
Proof.
  split; [done|]. split; [done|]. intros Hs.
  unfold run_async, run_protocol_task, rb_need_block, rb_ivar_get. mrun. rewrite Hs. done.
Qed.

Lemma run_without_block_or_handle_witness :
  let core := RObject "Iodine" 1 in
  let w := snd (srv_start core (configured (Fixnum 2) (Fixnum 1))) in
  ivars w !! (core, server_var_id) = None /\
  run_async core (Some (RProc 1)) w = (Undefined, w) /\
  run_protocol_task core (Some (RProc 1)) w = (Undefined, w).
Proof.
  intros core w.
  assert (ivars w !! (core, server_var_id) = None) as H by (vm_compute; reflexivity).
  split; [exact H|].
  exact (proj2 (proj2 (run_without_block_or_handle core (RProc 1) w)) H).
Defined.









(** ** Writing and closing *)

Lemma RSTRING_run (a : positive) (w : World) :
  match strs w !! a with
  | Some s => RSTRING_PTR (RString a) w = (Return a, w) /\
              RSTRING_LEN (RString a) w = (Return (s_len s), w)
  | None => RSTRING_PTR (RString a) w = (Undefined, w)
  end.
Proof.
  unfold RSTRING_PTR, RSTRING_LEN, RSTRING, bind. by destruct (strs w !! a).
Qed.

Lemma RSTRING_PTR_other (v : VALUE) (w : World) :
  (forall a, v <> RString a) -> RSTRING_PTR v w = (Undefined, w).
Proof. intros H. destruct v as [| | | |a| | | | |]; try done. by destruct (H a). Qed.

(** X12. [write] and [write_urgent] do not check what they are given:
    for a String they hand lib-server its address and its length and
    return the count lib-server gives, as a Fixnum; for anything else
    ([nil], a number, ...) they are undefined behaviour, and lib-server is
    not called. *)
Theorem srv_write_data (Server_write Server_write_urgent : positive -> Z -> positive -> Z -> M Z)
    (self data : VALUE) (srv : positive) (fd : Z) (w : World) :
  ivars w !! (self, server_var_id) = Some (RData srv) ->
  ivars w !! (self, fd_var_id) = Some (Fixnum fd) ->
  INT_MIN <= fd <= INT_MAX ->
  match data with
  | RString a =>
      match strs w !! a with
      | Some s =>
          srv_write Server_write self data w =
            (let* n := Server_write srv fd a (s_len s) in ret (Fixnum n)) w /\
          srv_write_urgent Server_write_urgent self data w =
            (let* n := Server_write_urgent srv fd a (s_len s) in ret (Fixnum n)) w
      | None =>
          srv_write Server_write self data w = (Undefined, w) /\
          srv_write_urgent Server_write_urgent self data w = (Undefined, w)
      end
  | _ =>
      srv_write Server_write self data w = (Undefined, w) /\
      srv_write_urgent Server_write_urgent self data w = (Undefined, w)
  end.
Proof.
  intros Hs Hf Hr. destruct (bound_ivars self srv fd w Hs Hf Hr) as [Es Ef].
  unfold srv_write, srv_write_urgent.
  rewrite !(bind_Return _ _ _ _ _ Es), !(bind_Return _ _ _ _ _ Ef).
  destruct data as [| | | |a| | | | |];
    try (split; apply bind_Undefined, RSTRING_PTR_other; done).
  pose proof (RSTRING_run a w) as Hstr.
  destruct (strs w !! a) as [s|].
  - destruct Hstr as [Hp Hl].
    by rewrite !(bind_Return _ _ _ _ _ Hp), !(bind_Return _ _ _ _ _ Hl).
  - by rewrite !(bind_Undefined _ _ _ _ Hstr).
Qed.

Lemma srv_write_data_witness :
  let self := RObject "Echo" 1 in
  srv_write write_all self (RString 2) with_buffer = (Return (Fixnum 0), with_buffer) /\
  srv_write write_all self Qnil with_buffer = (Undefined, with_buffer) /\
  srv_write_urgent write_all self (Fixnum 7) with_buffer = (Undefined, with_buffer).
Proof.
  intros self.
  assert (ivars with_buffer !! (self, server_var_id) = Some (RData the_server)) as Hs
    by (vm_compute; reflexivity).
  assert (ivars with_buffer !! (self, fd_var_id) = Some (Fixnum 5)) as Hf
    by (vm_compute; reflexivity).
  assert (INT_MIN <= 5 <= INT_MAX) as Hr by (vm_compute; split; discriminate).
  pose proof (srv_write_data write_all write_all self (RString 2) the_server 5 with_buffer Hs Hf Hr)
    as H1.
  pose proof (srv_write_data write_all write_all self Qnil the_server 5 with_buffer Hs Hf Hr)
    as [H2 _].
  pose proof (srv_write_data write_all write_all self (Fixnum 7) the_server 5 with_buffer Hs Hf Hr)
    as [_ H3].
  split; [|split; [exact H2|exact H3]].
  assert (strs with_buffer !! 2%positive = Some {| s_mem := []; s_len := 0; s_capa := 128 |})
    as Hstr by (vm_compute; reflexivity).
  cbv beta iota in H1. rewrite Hstr in H1. destruct H1 as [-> _]. reflexivity.
Defined.

(** X13. [close] asks lib-server to close the descriptor the object
    holds and does nothing else; without a server handle it is undefined
    behaviour.  [force_close] closes the descriptor itself and needs no
    server handle.  Either raises, with nothing closed, when the object
    holds no descriptor.  Neither calls [on_close], nor unbinds or
    deregisters the object. *)
Theorem srv_close_outcomes (self : VALUE) (w : World) :
  match srv_close self w with
  | (Return v, w') =>
      v = Qnil /\
      exists srv fd,
        ivars w !! (self, server_var_id) = Some (RData srv) /\
        ivars w !! (self, fd_var_id) = Some (Fixnum fd) /\ w' = log (EvClose fd) w
  | (Raise e, w') => w' = w /\ forall fd, ivars w !! (self, fd_var_id) = Some (Fixnum fd) ->
                                          ~ INT_MIN <= fd <= INT_MAX
  | (Undefined, w') => w' = w /\ forall srv, ivars w !! (self, server_var_id) <> Some (RData srv)
  end /\
  match srv_force_close self w with
  | (Return v, w') =>
      v = Qnil /\
      exists fd, ivars w !! (self, fd_var_id) = Some (Fixnum fd) /\ w' = log (EvForceClose fd) w
  | (Raise e, w') => w' = w /\ forall fd, ivars w !! (self, fd_var_id) = Some (Fixnum fd) ->
                                          ~ INT_MIN <= fd <= INT_MAX
  | (Undefined, _) => False
  end.
Proof.
  assert (match (let* v := rb_ivar_get self fd_var_id in FIX2INT v) w with
          | (Return fd, w') => ivars w !! (self, fd_var_id) = Some (Fixnum fd) /\ w' = w
          | (Raise e, w') => w' = w /\ forall fd, ivars w !! (self, fd_var_id) = Some (Fixnum fd) ->
                                                  ~ INT_MIN <= fd <= INT_MAX
          | (Undefined, _) => False
          end) as Hfd.
  { unfold rb_ivar_get. rewrite bind_gets.
    destruct (ivars w !! (self, fd_var_id)) as [[| | |n| | | | | |]|] eqn:Hl; simpl;
      try (split; [done|]; by intros fd [=]).
    case_bool_decide; [done|]. split; [done|]. by intros fd [= <-]. }
  split.
  - unfold srv_close, rb_ivar_get at 1. rewrite bind_bind, bind_gets.
    destruct (ivars w !! (self, server_var_id)) as [[| | | | | | | |srv|]|] eqn:Hl; simpl;
      try (split; [done|]; by intros srv [=]).
    rewrite bind_ret. unfold bind at 1.
    destruct ((let* v := rb_ivar_get self fd_var_id in FIX2INT v) w) as [[fd|e|] w1]; try done.
    destruct Hfd as [Hfd ->]. unfold Server_close. rewrite bind_emit. unfold ret.
    split; [done|]. by exists srv, fd.
  - unfold srv_force_close. unfold bind at 1.
    destruct ((let* v := rb_ivar_get self fd_var_id in FIX2INT v) w) as [[fd|e|] w1]; try done.
    destruct Hfd as [Hfd ->]. rewrite bind_emit. unfold ret.
    split; [done|]. by exists fd.
Qed.

(** ** What [read] asks for *)

Lemma srv_read_fresh (self : VALUE) (fd L : Z) (argv : list VALUE) (w : World) :
  ivars w !! (self, fd_var_id) = Some (Fixnum fd) -> INT_MIN <= fd <= INT_MAX ->
  0 < L ->
  srv_read argv self w =
    (let* fd := (let* v := rb_ivar_get self fd_var_id in FIX2INT v) in
     let* str := rb_str_buf_new L in
     let* ptr := RSTRING_PTR str in
     let* n := Server_read fd ptr L in
     let* _ := (if bool_decide (n > 0) then rb_str_set_len str n
                else rb_str_set_len str 0) in
     ret str) w ->
  exists n s,
    fst (srv_read argv self w) = Return (RString (next_id w)) /\
    trace (snd (srv_read argv self w)) = trace w ++ [EvRead fd L n] /\
    strs (snd (srv_read argv self w)) !! next_id w = Some s /\
    s_capa s = Z.max L STR_BUF_MIN_SIZE.
Proof.
  intros Hf Hr HL ->.
  assert ((let* v := rb_ivar_get self fd_var_id in FIX2INT v) w = (Return fd, w)) as Ef.
  { unfold rb_ivar_get. rewrite bind_gets, Hf. simpl. by rewrite bool_decide_eq_true_2. }
  rewrite (bind_Return _ _ _ _ _ Ef).
  destruct (srv_read_new fd L w HL) as (n & d & rest & ->).
  eexists n, _. simpl. split; [done|]. split; [done|]. rewrite lookup_insert_eq. done.
Qed.

(** X14. What [read] asks lib-server for, for an object that holds a
    descriptor: 1024 bytes when called with no argument or with [nil];
    [k] bytes when called with a positive number [k], and 1024 for a
    number that is not positive, into a new String each time; the
    capacity of the String, at least 1024, when called with a String, and
    then the String returned is the one given. *)
Theorem srv_read_request (self : VALUE) (fd : Z) (w : World) :
  ivars w !! (self, fd_var_id) = Some (Fixnum fd) -> INT_MIN <= fd <= INT_MAX ->
  (forall argv, argv = [] \/ argv = [Qnil] ->
     exists n s,
       fst (srv_read argv self w) = Return (RString (next_id w)) /\
       trace (snd (srv_read argv self w)) = trace w ++ [EvRead fd 1024 n] /\
       strs (snd (srv_read argv self w)) !! next_id w = Some s /\ s_capa s = 1024) /\
  (forall k,
     exists n s,
       fst (srv_read [Fixnum k] self w) = Return (RString (next_id w)) /\
       trace (snd (srv_read [Fixnum k] self w))
         = trace w ++ [EvRead fd (if bool_decide (k <= 0) then 1024 else k) n] /\
       strs (snd (srv_read [Fixnum k] self w)) !! next_id w = Some s /\
       s_capa s = Z.max (if bool_decide (k <= 0) then 1024 else k) STR_BUF_MIN_SIZE) /\
  (forall a s0, strs w !! a = Some s0 -> 0 <= s_len s0 <= s_capa s0 ->
     exists n s,
       fst (srv_read [RString a] self w) = Return (RString a) /\
       trace (snd (srv_read [RString a] self w))
         = trace w ++ [EvRead fd (Z.max 1024 (s_capa s0)) n] /\
       strs (snd (srv_read [RString a] self w)) !! a = Some s /\
       s_capa s = Z.max 1024 (s_capa s0)).
Proof.
  intros Hf Hr.
  assert ((let* v := rb_ivar_get self fd_var_id in FIX2INT v) w = (Return fd, w)) as Ef.
  { unfold rb_ivar_get. rewrite bind_gets, Hf. simpl. by rewrite bool_decide_eq_true_2. }
  split; [|split].
  - intros argv Hargv.
    destruct (srv_read_fresh self fd 1024 argv w Hf Hr ltac:(lia)) as (n & s & H1 & H2 & H3 & H4).
    { destruct Hargv as [-> | ->]; unfold srv_read; simpl;
        apply bind_ext; intros fd' w1; unfold FIX2LONG, LONG2FIX; mrun;
        rewrite ?bool_decide_eq_false_2 by lia; by apply bind_ext. }
    exists n, s. by rewrite H4.
  - intros k.
    apply (srv_read_fresh self fd (if bool_decide (k <= 0) then 1024 else k));
      [done|done|case_bool_decide; lia|].
    unfold srv_read. simpl.
    apply bind_ext. intros fd' w1. unfold FIX2LONG, LONG2FIX. mrun. by apply bind_ext.
  - intros a s0 Hs Hlen.
    destruct (srv_read_buffer self fd a s0 w Ef Hs Hlen) as (n & d & rest & _ & ->).
    eexists n, _. simpl. split; [done|]. split; [done|]. rewrite lookup_insert_eq. done.
Qed.

Lemma srv_read_request_witness :
  let self := RObject "Echo" 1 in
  (fst (srv_read [] self with_buffer) = Return (RString 3) /\
   drop (length (trace with_buffer)) (trace (snd (srv_read [] self with_buffer)))
     = [EvRead 5 1024 300]) /\
  (exists n s,
     fst (srv_read [RString 2] self with_buffer) = Return (RString 2) /\
     trace (snd (srv_read [RString 2] self with_buffer))
       = trace with_buffer ++ [EvRead 5 (Z.max 1024 128) n] /\
     strs (snd (srv_read [RString 2] self with_buffer)) !! 2%positive = Some s /\
     s_capa s = Z.max 1024 128).
Proof.
  intros self. split; [split; vm_compute; reflexivity|].
  assert (ivars with_buffer !! (self, fd_var_id) = Some (Fixnum 5)) as Hf
    by (vm_compute; reflexivity).
  assert (INT_MIN <= 5 <= INT_MAX) as Hr by (vm_compute; split; discriminate).
  apply (proj2 (proj2 (srv_read_request self 5 with_buffer Hf Hr)) 2%positive
           {| s_mem := []; s_len := 0; s_capa := 128 |}).
  - vm_compute; reflexivity.
  - simpl. lia.
Defined.

(** ** Starting the server *)

Lemma srv_start_no_gvl_run (s : ServerSettings) (w : World) :
  rb_thread_call_without_gvl (srv_start_no_gvl s) w = (Return tt, listened s w).
Proof.
  unfold rb_thread_call_without_gvl, srv_start_no_gvl, Server_listen, on_init,
    Server_settings, rb_ivar_get, Server_set_udata, fprintf_stderr, perror, listened.
  mrun. simpl.
  case_bool_decide; mrun; unfold ret; f_equal; world.
Qed.

Lemma not_started_refl w : not_started w w.
Proof.
  repeat split; try done. exists []. split; [by rewrite app_nil_r|].
  intros ev Hin. by apply elem_of_nil in Hin.
Qed.

Lemma not_started_warn w w' t : not_started w w' -> not_started w (log (EvWarn t) w').
Proof.
  intros (? & ? & ? & ? & ? & ? & ? & evs & Htr & Hev). repeat split; try done.
  exists (evs ++ [EvWarn t]). simpl. split; [by rewrite Htr, <- (assoc_L (++))|].
  intros ev [Hin|Hin]%elem_of_app; [by apply Hev|].
  apply list_elem_of_singleton in Hin as ->. by exists t.
Qed.

Lemma not_started_include w w' X : not_started w w' -> not_started w (set_includes X w').
Proof. intros (? & ? & ? & ? & ? & ? & ? & ?). by repeat split. Qed.

Lemma bind_quiet {A B} (m : M A) (k : A -> M B) (P : A -> Prop) (w : World)
    (Q : Outcome B * World -> Prop) :
  quiet m P w ->
  (forall e, Q (Raise e, w)) -> Q (Undefined, w) ->
  (forall a, P a -> Q (k a w)) ->
  Q (bind m k w).
Proof.
  unfold quiet, bind. intros Hm Hr Hu Hk.
  destruct (m w) as [[a|e|] w']; [destruct Hm as [-> Ha]|subst w'|subst w']; auto.
Qed.

Lemma quiet_ret {A} (a : A) (w : World) : quiet (ret a) (fun x => x = a) w.
Proof. done. Qed.

Lemma quiet_FIX2INT (v : VALUE) (w : World) :
  quiet (FIX2INT v) (fun n => v = Fixnum n /\ INT_MIN <= n <= INT_MAX) w.
Proof. unfold quiet, FIX2INT. destruct v; try done. simpl. by case_bool_decide. Qed.

Lemma quiet_StringValueCStr (v : VALUE) (w : World) :
  quiet (StringValueCStr v) (fun _ => True) w.
Proof.
  unfold quiet, StringValueCStr. destruct v as [| | | |a| | | | |]; try done.
  unfold RSTRING_BYTES, RSTRING, bind. destruct (strs w !! a); [|done].
  simpl. by case_bool_decide.
Qed.

Lemma quiet_weaken {A} (m : M A) (P P' : A -> Prop) (w : World) :
  quiet m P w -> (forall a, P a -> P' a) -> quiet m P' w.
Proof.
  unfold quiet. destruct (m w) as [[a|e|] w']; [|done|done].
  intros [-> Ha] HP. split; [done|by apply HP].
Qed.

Lemma quiet_default (v : VALUE) (d : Z) (w : World) :
  quiet (if bool_decide (v = Qnil) then ret d else FIX2INT v)
    (fun n => (v = Qnil /\ n = d) \/ (v = Fixnum n /\ INT_MIN <= n <= INT_MAX)) w.
Proof.
  case_bool_decide.
  - unfold quiet. simpl. split; [done|by left].
  - apply (quiet_weaken _ _ _ _ (quiet_FIX2INT v w)). by right.
Qed.

Lemma quiet_optional_string (v : VALUE) (w : World) :
  quiet (if bool_decide (v = Qnil) then ret None
         else let* b := StringValueCStr v in ret (Some b)) (fun _ => True) w.
Proof.
  case_bool_decide; [done|].
  pose proof (quiet_StringValueCStr v w) as Hq. unfold quiet, bind in *.
  by destruct (StringValueCStr v w) as [[b|e|] w'].
Qed.

(** The timeout check of [start]: it lets [nil] and the numbers from 0 to
    255 through. *)
Lemma quiet_timeout_check (v : VALUE) (w : World) :
  quiet (c_and (ret (bool_decide (v <> Qnil)))
           (c_or (ret (bool_decide (TYPE v <> T_FIXNUM)))
              (c_or (let* t := FIX2INT v in ret (bool_decide (t > 255)))
                    (let* t := FIX2INT v in ret (bool_decide (t < 0))))))
    (fun bad => bad = false -> v = Qnil \/ exists t, v = Fixnum t /\ 0 <= t <= 255) w.
Proof.
  unfold quiet, c_and, c_or, FIX2INT. destruct v as [| | |n| | | | | |]; try done.
  - split; [done|]. by left.
  - unfold bind, ret. simpl. case_bool_decide; simpl; [|done].
    repeat case_bool_decide; simpl; split; try done.
    intros _. right. exists n. split; [done|lia].
Qed.

(** The checks of the process and thread counts: they let [nil] and every
    Fixnum through. *)
Lemma quiet_count_check (v : VALUE) (limit : Z) (w : World) :
  quiet (c_and (ret (bool_decide (v <> Qnil)))
           (c_and (ret (bool_decide (TYPE v <> T_FIXNUM)))
              (let* n := FIX2INT v in ret (bool_decide (n > limit)))))
    (fun bad => bad = false /\ (v = Qnil \/ exists n, v = Fixnum n)) w.
Proof.
  unfold quiet, c_and, c_or, FIX2INT. destruct v as [| | |n| | | | | |]; try done.
  - split; [done|]. split; [done|by left].
  - split; [done|]. split; [done|]. right. by exists n.
Qed.

Lemma srv_start_cases (self : VALUE) (w : World) : start_post self w (srv_start self w).
Proof.
  unfold srv_start, rb_ivar_get. rewrite !bind_gets.
  assert (forall n, core_ivar w self n = default Qnil (ivars w !! (self, rb_intern n))) as Hiv
    by done.
  rewrite <- !Hiv. clear Hiv.
  set (Q := start_post self w).
  assert (forall e, Q (Raise e, w)) as Hraise by (intros e; apply not_started_refl).
  assert (Q (Undefined, w)) as Hundef by apply not_started_refl.
  case_bool_decide as Hclass; [apply Hraise|].
  case_bool_decide as Hport; [apply Hraise|].
  apply (bind_quiet _ _ _ _ Q (quiet_default (core_ivar w self "@port") 3000 w)); try done.
  intros iport Hiport.
  case_bool_decide as Hrange; [apply Hraise|].
  case_bool_decide as Hbind; [apply Hraise|].
  assert (exists w1, not_started w w1 /\ includes w1 = includes w /\
            (if bool_decide (core_ivar w self "@address" <> Qnil)
             then rb_warn "the `bind` property is ignored, unimplemented yet"
             else ret tt) w = (Return tt, w1)) as (w1 & Hns & Hinc & Hwarn).
  { case_bool_decide.
    - eexists. split; [|split; [|reflexivity]]; [|done].
      apply not_started_warn, not_started_refl.
    - exists w. split; [apply not_started_refl|done]. }
  rewrite (bind_Return _ _ _ _ _ Hwarn). clear Hwarn Hraise Hundef.
  assert (forall e, Q (Raise e, w1)) as Hraise by (intros e; exact Hns).
  assert (Q (Undefined, w1)) as Hundef by exact Hns.
  apply (bind_quiet _ _ _ _ Q (quiet_timeout_check (core_ivar w self "@timeout") w1)); try done.
  intros bad_timeout Htimeout.
  destruct bad_timeout; [apply Hraise|]. specialize (Htimeout eq_refl).
  apply (bind_quiet _ _ _ _ Q (quiet_count_check (core_ivar w self "@processes") 32 w1));
    try done.
  intros bad_processes [-> Hprocesses].
  apply (bind_quiet _ _ _ _ Q (quiet_count_check (core_ivar w self "@threads") 128 w1));
    try done.
  intros bad_threads [-> Hthreads].
  case_bool_decide as Hbusy; [apply Hraise|].
  apply (bind_quiet _ _ _ _ Q (quiet_optional_string (core_ivar w self "@address") w1));
    try done.
  intros address _.
  apply (bind_quiet _ _ _ _ Q (quiet_default (core_ivar w self "@timeout") 10 w1)); try done.
  intros timeout Htimeout'.
  unfold rb_include_module. rewrite bind_modify.
  set (w2 := set_includes _ w1).
  assert (not_started w w2) as Hns2 by (by apply not_started_include).
  clear Hraise Hundef.
  assert (forall e, Q (Raise e, w2)) as Hraise by (intros e; exact Hns2).
  assert (Q (Undefined, w2)) as Hundef by exact Hns2.
  apply (bind_quiet _ _ _ _ Q (quiet_default (core_ivar w self "@threads") 0 w2)); try done.
  intros threads Hthreads'.
  apply (bind_quiet _ _ _ _ Q (quiet_default (core_ivar w self "@processes") 0 w2)); try done.
  intros processes Hprocesses'.
  apply (bind_quiet _ _ _ _ Q (quiet_optional_string (core_ivar w self "@busy_msg") w2));
    try done.
  intros busy_msg _.
  rewrite (bind_Return _ _ _ _ _ (srv_start_no_gvl_run _ w2)).
  subst Q. unfold ret, start_post. split; [done|].
  exists address, busy_msg, w2.
  assert (0 <= match core_ivar w self "@port" with Fixnum n => n | _ => 3000 end <= 65535
          /\ iport = match core_ivar w self "@port" with Fixnum n => n | _ => 3000 end)
    as [Hp1 Hp2].
  { destruct Hiport as [[-> ->]|[-> _]]; split; (done || lia). }
  assert (timeout = match core_ivar w self "@timeout" with Fixnum t => t | _ => 10 end
          /\ 0 <= timeout <= 255) as [Ht1 Ht2].
  { destruct Htimeout' as [[-> ->]|[Ht _]]; [split; [done|lia]|].
    rewrite Ht. split; [done|].
    destruct Htimeout as [Hn|(t & Ht' & ?)]; [congruence|]. rewrite Ht in Ht'.
    injection Ht' as ->. done. }
  assert (threads = match core_ivar w self "@threads" with Fixnum n => n | _ => 0 end) as Hth.
  { by destruct Hthreads' as [[-> ->]|[-> _]]. }
  assert (processes = match core_ivar w self "@processes" with Fixnum n => n | _ => 0 end)
    as Hpr.
  { by destruct Hprocesses' as [[-> ->]|[-> _]]. }
  split; [|split; [done|split; [|split; [done|split; [|done]]]]].
  - f_equal. unfold start_settings. by rewrite <- Hp2, <- Ht1, <- Hth, <- Hpr.
  - subst w2. simpl. by rewrite Hinc.
  - unfold start_settings. simpl. by rewrite <- Ht1.
Qed.

(** X15. When [start] does not return, nothing was started:
    [Server.listen] was not called, the settings, the user-data, the
    Registry and the attributes are as before, and the only output is at
    most a warning. *)
Theorem srv_start_raise_not_started (self : VALUE) (w : World) :
  match srv_start self w with
  | (Return _, _) => True
  | (_, w') =>
      settings w' = settings w /\ udata w' = udata w /\ registry w' = registry w /\
      ivars w' = ivars w /\
      exists evs, trace w' = trace w ++ evs /\
        (forall s, EvListen s ∉ evs) /\ (forall ev, ev ∈ evs -> exists t, ev = EvWarn t)
  end.
Proof.
  pose proof (srv_start_cases self w) as H. unfold start_post in H.
  assert (forall w', not_started w w' ->
    settings w' = settings w /\ udata w' = udata w /\ registry w' = registry w /\
    ivars w' = ivars w /\
    exists evs, trace w' = trace w ++ evs /\
      (forall s, EvListen s ∉ evs) /\ (forall ev, ev ∈ evs -> exists t, ev = EvWarn t)) as Hn.
  { intros w' (? & ? & ? & ? & ? & ? & ? & evs & Htr & Hev). repeat split; try done.
    exists evs. split; [done|]. split; [|done].
    intros s Hin. by destruct (Hev _ Hin). }
  destruct (srv_start self w) as [[v|e|] w']; [done|by apply Hn|by apply Hn].
Qed.



(** X17. [start] on a core object that has a protocol class and nothing
    else set returns [nil] after listening with the defaults: a timeout of
    10, port 3000, no address, no busy message, and thread and process
    counts of 0. *)
Theorem srv_start_defaults (self p : VALUE) (w : World) :
  core_ivar w self "@protocol" = p -> TYPE p = T_CLASS ->
  core_ivar w self "@port" = Qnil -> core_ivar w self "@address" = Qnil ->
  core_ivar w self "@timeout" = Qnil -> core_ivar w self "@threads" = Qnil ->
  core_ivar w self "@processes" = Qnil -> core_ivar w self "@busy_msg" = Qnil ->
  srv_start self w =
    (Return Qnil,
     listened {| s_timeout := 10; s_threads := 0; s_processes := 0; s_port := Some "3000";
                 s_address := None; s_udata := self; s_busy_msg := None |}
       (set_includes ({[p]} ∪ includes w) w)).
Proof.
  unfold core_ivar. intros Hp Hclass Hport Haddr Htime Hthr Hproc Hbusy.
  unfold srv_start, rb_ivar_get. rewrite !bind_gets.
  rewrite Hp, Hport, Haddr, Htime, Hthr, Hproc, Hbusy.
  rewrite (bool_decide_eq_false_2 (TYPE p <> T_CLASS)) by (by intros ?).
  simpl. unfold c_and, rb_include_module. mrun. simpl. mrun.
  rewrite (bind_Return _ _ _ _ _ (srv_start_no_gvl_run _ _)). done.
Qed.

Lemma srv_start_defaults_witness :
  let self := RObject "Iodine" 1 in
  srv_start self only_protocol =
    (Return Qnil,
     listened {| s_timeout := 10; s_threads := 0; s_processes := 0; s_port := Some "3000";
                 s_address := None; s_udata := self; s_busy_msg := None |}
       (set_includes ({[RClass "Echo"]} ∪ includes only_protocol) only_protocol)) /\
  drop (length (trace only_protocol)) (trace (snd (srv_start self only_protocol))) =
    [EvGvlRelease;
     EvListen {| s_timeout := 10; s_threads := 0; s_processes := 0; s_port := Some "3000";
                 s_address := None; s_udata := self; s_busy_msg := None |};
     EvSetUdata 0 (RClass "Echo");
     EvStderr ("Starting up Iodine V. 0.2.0 using 0 thread X 0 processes" +:+ LF);
     EvGvlAcquire].
Proof.
  intros self. split; [|vm_compute; reflexivity].
  apply (srv_start_defaults self (RClass "Echo") only_protocol); vm_compute; reflexivity.
Defined.

(** ** An error in on_message *)

Lemma def_on_data_body_raises (self e : VALUE) (fd : Z) (a : positive) (s : RStr) (w : World) :
  (let* v := rb_ivar_get self fd_var_id in FIX2INT v) w = (Return fd, w) ->
  raises_in w self on_message_func_id e ->
  strs w !! a = Some s ->
  0 <= s_len s <= s_capa s ->
  let capa := Z.max 1024 (s_capa s) in
  exists n d rest,
    take_incoming capa (default [] (inbox w !! fd)) = (n, d, rest) /\
    (0 < n ->
     exists w',
       def_on_data_body self (RString a) w = (Raise e, w') /\
       trace w' = trace w ++ [EvRead fd capa n; EvFuncall self on_message_func_id [(RString a, d)]] /\
       inbox w' !! fd = Some rest) /\
    (n <= 0 -> exists w', def_on_data_body self (RString a) w = (Return false, w')).
Proof.
  intros Ef (m & Hc & Hm) Hs Hlen capa.
  destruct (srv_read_buffer self fd a s w Ef Hs Hlen) as (n & d & rest & Et & Hread).
  fold capa in Et, Hread.
  destruct (take_incoming_bounds _ _ _ _ _ Et) as (Hn1 & Hn2 & Hn3).
  exists n, d, rest. split; [done|].
  split; intros Hn; unfold def_on_data_body; rewrite (bind_Return _ _ _ _ _ Hread);
    unfold RSTRING_LEN, rb_str_capacity, RSTRING; mrun;
    unfold bind at 1; simpl; rewrite lookup_insert_eq; mrun; simpl.
  - rewrite (bool_decide_eq_true_2 (n > 0)) by lia. simpl.
    rewrite (bool_decide_eq_false_2 (n = 0)) by lia.
    match goal with |- context [bind (rb_funcall_with _ _ _ _) _ ?w1] => set (w1' := w1) end.
    assert (code w1' self on_message_func_id = Some m) as Hc' by done.
    assert (exists u, rb_funcall_with protocol_callbacks self on_message_func_id [RString a] w1'
              = (Raise e, set_uvars u
                   (log (EvFuncall self on_message_func_id [(RString a, d)]) w1'))) as (u & Hcall).
    { rewrite (rb_funcall_with_user _ _ _ _ _ m Hc'). unfold run_method, snapshot. simpl.
      rewrite lookup_insert_eq. simpl.
      assert (str_bytes {| s_mem := d ++ drop (length d) (s_mem s); s_len := n; s_capa := capa |}
              = d) as ->.
      { unfold str_bytes. simpl. apply resize_app. lia. }
      match goal with |- context [m ?args ?u] =>
        destruct (Hm args u) as (u' & Hu); rewrite Hu end.
      by exists u'. }
    rewrite (bind_Raise _ _ _ _ _ Hcall).
    eexists. split; [reflexivity|]. simpl. rewrite lookup_insert_eq.
    split; [by rewrite <- (assoc_L (++))|done].
  - rewrite (bool_decide_eq_false_2 (n > 0)) by lia. simpl. by eexists.
Qed.

Lemma do_while_S (fuel : nat) (body : M bool) (w : World) :
  do_while (S fuel) body w =
    match body w with
    | (Return true, w1) => do_while fuel body w1
    | (Return false, w1) => Some (Return tt, w1)
    | (Raise e, w1) => Some (Raise e, w1)
    | (Undefined, w1) => Some (Undefined, w1)
    end.
Proof. done. Qed.

(** X18. An error raised by [on_message] ends the default [on_data] at
    once: it is not caught there (the gateway that called [on_data]
    handles it), [on_message] was called once, with the first chunk, and
    what that read left stays pending.  With nothing to read,
    [on_message] is not called and [on_data] returns [nil]. *)
Theorem def_on_data_stops_on_error (self e : VALUE) (fd : Z) (w : World) :
  ivars w !! (self, fd_var_id) = Some (Fixnum fd) ->
  INT_MIN <= fd <= INT_MAX ->
  raises_in w self on_message_func_id e ->
  read_buffer_ok w self ->
  exists capa n d rest,
    1024 <= capa /\
    take_incoming capa (default [] (inbox w !! fd)) = (n, d, rest) /\
    (0 < n ->
     exists a w',
       def_on_data self w = (Raise e, w') /\
       trace w' = trace w ++ [EvRead fd capa n; EvFuncall self on_message_func_id [(RString a, d)]] /\
       inbox w' !! fd = Some rest) /\
    (n <= 0 -> fst (def_on_data self w) = Return Qnil).
Proof.
  intros Hf Hr Hraise Hbuf. unfold read_buffer_ok in Hbuf.
  destruct (def_on_data self w) as [o wo] eqn:Hrun.
  unfold def_on_data, rb_ivar_get in Hrun. mrun in Hrun.
  destruct (default Qnil (ivars w !! (self, buff_var_id))) as [| | | |a| | | | |] eqn:Eb;
    try done.
  - (* no buffer yet *)
    rewrite bool_decide_eq_true_2 in Hrun by done.
    unfold rb_str_buf_new, fresh_addr, rb_ivar_set in Hrun. mrun in Hrun.
    unfold bind at 1 in Hrun. mrun in Hrun.
    match type of Hrun with context [do_while _ _ ?w1] => set (w1' := w1) in * end.
    assert (ivars w1' !! (self, fd_var_id) = Some (Fixnum fd)) as Hf1.
    { simpl. by rewrite lookup_insert_ne. }
    assert ((let* v := rb_ivar_get self fd_var_id in FIX2INT v) w1' = (Return fd, w1')) as Ef
      by (by apply bound_fd_ivar).
    assert (strs w1' !! next_id w
            = Some {| s_mem := []; s_len := 0; s_capa := Z.max 1024 STR_BUF_MIN_SIZE |}) as Hs
      by (simpl; apply lookup_insert_eq).
    destruct (def_on_data_body_raises self e fd (next_id w) _ w1' Ef Hraise Hs)
      as (n & d & rest & Et & Hpos & Hneg).
    { simpl. unfold STR_BUF_MIN_SIZE. lia. }
    simpl in Et. rewrite do_while_S in Hrun.
    exists 1024, n, d, rest. split; [done|]. split; [exact Et|]. split.
    + intros Hn. destruct (Hpos Hn) as (w' & Hbody & Htr & Hin).
      rewrite Hbody in Hrun. injection Hrun as <- <-. by exists (next_id w), w'.
    + intros Hn. destruct (Hneg Hn) as (w' & Hbody).
      rewrite Hbody in Hrun. by injection Hrun as <- <-.
  - (* the buffer of an earlier call *)
    rewrite bool_decide_eq_false_2 in Hrun by done. mrun in Hrun.
    destruct Hbuf as (s & Hs & Hlen).
    destruct (def_on_data_body_raises self e fd a s w (bound_fd_ivar self fd w Hf Hr) Hraise Hs Hlen)
      as (n & d & rest & Et & Hpos & Hneg).
    rewrite do_while_S in Hrun.
    exists (Z.max 1024 (s_capa s)), n, d, rest. split; [lia|]. split; [exact Et|]. split.
    + intros Hn. destruct (Hpos Hn) as (w' & Hbody & Htr & Hin).
      rewrite Hbody in Hrun. injection Hrun as <- <-. by exists a, w'.
    + intros Hn. destruct (Hneg Hn) as (w' & Hbody).
      rewrite Hbody in Hrun. by injection Hrun as <- <-.
Qed.

Lemma def_on_data_stops_on_error_witness :
  let self := RObject "Picky" 1 in
  let e := RException "RuntimeError" (MesgStr "bad frame") in
  raises_in picky_connection self on_message_func_id e /\
  fst (def_on_data self picky_connection) = Raise e /\
  drop (length (trace picky_connection)) (trace (snd (def_on_data self picky_connection)))
    = [EvRead 5 1024 1024; EvFuncall self on_message_func_id [(RString 2, replicate 1024 97)]] /\
  inbox (snd (def_on_data self picky_connection)) !! 5 = Some [Bytes (replicate 1024 98)] /\
  exists capa n d rest,
    1024 <= capa /\
    take_incoming capa (default [] (inbox picky_connection !! 5)) = (n, d, rest) /\
    (0 < n ->
     exists a w',
       def_on_data self picky_connection = (Raise e, w') /\
       trace w' = trace picky_connection
                    ++ [EvRead 5 capa n; EvFuncall self on_message_func_id [(RString a, d)]] /\
       inbox w' !! 5 = Some rest) /\
    (n <= 0 -> fst (def_on_data self picky_connection) = Return Qnil).
Proof.
  intros self e.
  assert (raises_in picky_connection self on_message_func_id e) as Hraise.
  { exists (raising e). split; [vm_compute; reflexivity|]. intros args u. by exists u. }
  split; [exact Hraise|]. split; [vm_compute; reflexivity|].
  split; [vm_compute; reflexivity|]. split; [vm_compute; reflexivity|].
  apply (def_on_data_stops_on_error self e 5 picky_connection); try exact Hraise.
  - vm_compute; reflexivity.
  - vm_compute; split; discriminate.
  - vm_compute. exact I.
Defined.

(** ** Upgrading to an object *)

(** X19. [upgrade] to an object (not a class) calls no constructor and
    always goes through: the class of the object is given the Protocol
    module, so that for an object that does not define [on_open] the
    default is found even when its class had never included the module;
    the object is bound and registered in place of [self], and it is
    returned. *)
Theorem srv_upgrade_to_object (self : VALUE) (klass : string) (a srv : positive) (fd : Z)
    (w : World) :
  ivars w !! (self, server_var_id) = Some (RData srv) ->
  ivars w !! (self, fd_var_id) = Some (Fixnum fd) ->
  INT_MIN <= fd <= INT_MAX ->
  code w (RObject klass a) on_open_func_id = None ->
  srv_upgrade self (RObject klass a) w =
    (Return (RObject klass a),
     log (EvFuncall (RObject klass a) on_open_func_id [])
       (upgraded srv fd self (RObject klass a)
          (set_includes ({[RClass klass]} ∪ includes w) w))).
Proof.
  intros Hs Hf Hr Hcode.
  rewrite (srv_upgrade_unfold self (RObject klass a) w srv fd Hs Hf Hr) by done.
  simpl. rewrite bind_ret. simpl.
  set (B := RObject klass a).
  set (w1 := upgraded srv fd self B (set_includes ({[RClass klass]} ∪ includes w) w)).
  assert (rb_funcall B on_open_func_id [] w1
          = (Return Qnil, log (EvFuncall B on_open_func_id []) w1)) as Hcall.
  { unfold rb_funcall.
    rewrite (rb_funcall_with_table protocol_methods B on_open_func_id [] w1 (arity0 empty_func));
      [done|done| |reflexivity].
    simpl. apply elem_of_union_l. by apply elem_of_singleton. }
  apply call_unsafe_Return in Hcall. by rewrite (bind_Return _ _ _ _ _ Hcall).
Qed.

Lemma srv_upgrade_to_object_witness :
  let self := RObject "Echo" 1 in
  let B := RObject "Plain" 9 in
  let w := connected "Echo" 2 in
  (RClass "Plain" ∉ includes w) /\
  srv_upgrade self B w =
    (Return B,
     log (EvFuncall B on_open_func_id [])
       (upgraded the_server 5 self B (set_includes ({[RClass "Plain"]} ∪ includes w) w))).
Proof.
  intros self B w. split.
  - apply (bool_decide_unpack _). vm_compute. exact I.
  - apply (srv_upgrade_to_object self "Plain" 9 the_server 5 w); vm_compute;
      first [reflexivity | split; discriminate].
Defined.
